(** * RingViewer: a shallow embedding of [src/RingViewer.jsx]

    The component picks one ring model and one metal preset at random, builds a
    three.js scene, replaces the materials of the loaded meshes by two shared
    materials, fits the camera to the model and disposes its GPU resources when
    it unmounts.

    Number models.  Material parameters and colour channels are JavaScript
    numbers and are embedded as IEEE binary64 values ([float]), so the
    comparisons and the two arithmetic operations of the material set-up are
    the ones the program performs.  The value of [Math.random()] is a rational
    in the unit interval.  Positions, boxes and camera parameters are embedded
    over the real numbers: the geometric statements are the exact ones that the
    floating-point computation approximates.

    Library objects (three.js, React, the DOM) are embedded by the part of
    their documented behaviour that the component relies on; each such
    definition says so. *)

From Stdlib Require Import ZArith List String Ascii Bool Lia.
From Stdlib Require Import Floats.
From Stdlib Require Import QArith Qround.
From Stdlib Require Import Reals Lra.
Import ListNotations.

Set Warnings "-inexact-float".

(** ** JavaScript strings *)

Module JsString.

(** [String.prototype.toLowerCase] for a name in ASCII: the letters A-Z are
    mapped, every other byte is left as it is. *)
Definition lowerAscii (c : ascii) : ascii :=
  let n := nat_of_ascii c in
  if ((65 <=? n) && (n <=? 90))%nat then ascii_of_nat (n + 32) else c.

Fixpoint toLowerCase (s : string) : string :=
  match s with
  | EmptyString => EmptyString
  | String c rest => String (lowerAscii c) (toLowerCase rest)
  end.

(** [String.prototype.includes]: [sub] occurs in [s] at some offset. *)
Fixpoint includes (s sub : string) : bool :=
  String.prefix sub s ||
  match s with
  | EmptyString => false
  | String _ rest => includes rest sub
  end.

(** [s || dflt] for a string [s]: the empty string is falsy. *)
Definition orDefault (s dflt : string) : string :=
  match s with
  | EmptyString => dflt
  | _ => s
  end.

End JsString.

(** ** Catalogs (lines 9-45) *)

Definition RING_MODELS : list string :=
  [ "/models/ring1.glb"; "/models/ring2.glb"; "/models/ring3.glb";
    "/models/ring4.glb"; "/models/ring5.glb"; "/models/ring6.glb";
    "/models/ring7.glb"; "/models/ring8.glb"; "/models/ring9.glb";
    "/models/ring10.glb" ]%string.

Record MetalPreset := mkMetalPreset {
  label : string;
  preset_color : Z;
  preset_roughness : float;
  envIntensity : float
}.

(** The object literal [METALS], as its entries in insertion order. *)
Definition METALS : list (string * MetalPreset) :=
  [ ("yellow", mkMetalPreset "Yellow Gold" 0xe3bb5e 0.1 2.2);
    ("white",  mkMetalPreset "White Gold"  0xc2c2c3 0.1 2.0);
    ("rose",   mkMetalPreset "Rose Gold"   0xd9a483 0.1 2.1) ]%string.

(** [Object.keys(METALS)] *)
Definition METAL_KEYS : list string := map fst METALS.

(** [METALS[key]]; [None] is [undefined]. *)
Fixpoint lookup {A} (key : string) (obj : list (string * A)) : option A :=
  match obj with
  | [] => None
  | (k, v) :: rest => if String.eqb k key then Some v else lookup key rest
  end.

(** ** Random selection (lines 47-49, 75-77) *)

(** [pickRandom(arr)], with the value [random] returned by [Math.random()].
    An index outside the array reads [undefined], here [None]. *)
Definition pickRandom {A} (arr : list A) (random : Q) : option A :=
  let i := Qfloor (random * inject_Z (Z.of_nat (List.length arr))) in
  if (i <? 0)%Z then None else nth_error arr (Z.to_nat i).

(** React's [useRef(initial).current]: the hook's cell is created with
    [initial] on the first render of an instance; on later renders the
    argument has been evaluated but is dropped and the cell is returned. *)
Definition useRef {A} (cell : option A) (initial : A) : A :=
  match cell with
  | Some current => current
  | None => initial
  end.

(** The two [useRef] cells of a component instance holding the selection;
    [None] before the first render. *)
Record Hooks := mkHooks {
  modelPathRef : option (option string);
  metalKeyRef : option (option string)
}.

Definition freshInstance : Hooks := mkHooks None None.

Record Selection := mkSelection {
  modelPath : option string;
  metalKey : option string;
  metal : option MetalPreset
}.

(** One render of [RingViewer] (lines 75-77).  [u1] and [u2] are the values of
    the two [Math.random()] calls this render makes. *)
Definition RingViewer_render (u1 u2 : Q) (h : Hooks) : Hooks * Selection :=
  let modelPath := useRef (modelPathRef h) (pickRandom RING_MODELS u1) in
  let metalKey := useRef (metalKeyRef h) (pickRandom METAL_KEYS u2) in
  let metal := match metalKey with
               | Some k => lookup k METALS
               | None => None
               end in
  (mkHooks (Some modelPath) (Some metalKey),
   mkSelection modelPath metalKey metal).

(** A sequence of renders of one instance; the result lists what each render
    saw. *)
Fixpoint renders (us : list (Q * Q)) (h : Hooks) : list Selection :=
  match us with
  | [] => []
  | (u1, u2) :: rest =>
      let '(h', sel) := RingViewer_render u1 u2 h in
      sel :: renders rest h'
  end.

(** ** three.js mathematics, over the reals *)

Local Open Scope R_scope.

Module Vector3.

Record t : Type := mk { x : R; y : R; z : R }.

Definition zero : t := mk 0 0 0.
Definition add (a b : t) : t := mk (x a + x b) (y a + y b) (z a + z b).
Definition sub (a b : t) : t := mk (x a - x b) (y a - y b) (z a - z b).
Definition multiplyScalar (a : t) (s : R) : t := mk (x a * s) (y a * s) (z a * s).
Definition negate (a : t) : t := mk (- x a) (- y a) (- z a).
Definition min (a b : t) : t := mk (Rmin (x a) (x b)) (Rmin (y a) (y b)) (Rmin (z a) (z b)).
Definition max (a b : t) : t := mk (Rmax (x a) (x b)) (Rmax (y a) (y b)) (Rmax (z a) (z b)).
Definition length (a : t) : R := sqrt (x a * x a + y a * y a + z a * z a).

End Vector3.

Module Quaternion.

Record t : Type := mk { x : R; y : R; z : R; w : R }.

Definition identity : t := mk 0 0 0 1.

End Quaternion.

(** A world matrix is used only to map points; it is embedded as that map. *)
Definition Matrix4 : Type := Vector3.t -> Vector3.t.

Module Sphere.
Record t : Type := mk { center : Vector3.t; radius : R }.
(** [Sphere.makeEmpty] *)
Definition empty : t := mk Vector3.zero (-1).
End Sphere.

Module Box3.

(** three.js encodes the empty box by [min = +Infinity], [max = -Infinity];
    here it is [None], and [Some (min, max)] is a box that holds a point. *)
Definition t : Type := option (Vector3.t * Vector3.t).

Definition empty : t := None.

Definition expandByPoint (b : t) (p : Vector3.t) : t :=
  match b with
  | None => Some (p, p)
  | Some (mn, mx) => Some (Vector3.min mn p, Vector3.max mx p)
  end.

Definition setFromPoints (ps : list Vector3.t) : t :=
  fold_left expandByPoint ps empty.

Definition union (a b : t) : t :=
  match a, b with
  | None, _ => b
  | _, None => a
  | Some (amn, amx), Some (bmn, bmx) =>
      Some (Vector3.min amn bmn, Vector3.max amx bmx)
  end.

(** The eight corners, in the order [applyMatrix4] visits them. *)
Definition corners (mn mx : Vector3.t) : list Vector3.t :=
  let '(Vector3.mk x0 y0 z0) := mn in
  let '(Vector3.mk x1 y1 z1) := mx in
  [ Vector3.mk x0 y0 z0; Vector3.mk x0 y0 z1;
    Vector3.mk x0 y1 z0; Vector3.mk x0 y1 z1;
    Vector3.mk x1 y0 z0; Vector3.mk x1 y0 z1;
    Vector3.mk x1 y1 z0; Vector3.mk x1 y1 z1 ].

(** [Box3.applyMatrix4]: the box of the transformed corners; the empty box
    is returned as it is. *)
Definition applyMatrix4 (b : t) (m : Matrix4) : t :=
  match b with
  | None => None
  | Some (mn, mx) => setFromPoints (map m (corners mn mx))
  end.

Definition getCenter (b : t) : Vector3.t :=
  match b with
  | None => Vector3.zero
  | Some (mn, mx) => Vector3.multiplyScalar (Vector3.add mn mx) 0.5
  end.

Definition getSize (b : t) : Vector3.t :=
  match b with
  | None => Vector3.zero
  | Some (mn, mx) => Vector3.sub mx mn
  end.

Definition getBoundingSphere (b : t) : Sphere.t :=
  match b with
  | None => Sphere.empty
  | Some _ => Sphere.mk (getCenter b) (Vector3.length (getSize b) * 0.5)
  end.

Definition translate (b : t) (d : Vector3.t) : t :=
  match b with
  | None => None
  | Some (mn, mx) => Some (Vector3.add mn d, Vector3.add mx d)
  end.

End Box3.

(** [THREE.MathUtils.degToRad] *)
Definition degToRad (degrees : R) : R := degrees * (PI / 180).

(** ** Scene graph *)

Record BufferGeometry := mkBufferGeometry {
  geometry_id : nat;            (* identity of the object: two meshes may share one *)
  boundingBox : Box3.t          (* in the geometry's own coordinates *)
}.

(** A node of the scene graph with the fields the component reads or writes.
    [M] is what the [material] slot holds.  The local matrix is composed from
    [position], [quaternion] and [scale]. *)
#[local] Unset Elimination Schemes.
Inductive Object3D (M : Type) : Type := mkObject3D {
  isMesh : bool;
  name : string;
  material : M;
  geometry : option BufferGeometry;
  renderOrder : Z;
  position : Vector3.t;
  quaternion : Quaternion.t;
  scale : Vector3.t;
  children : list (Object3D M)
}.
#[local] Set Elimination Schemes.

Arguments mkObject3D {M}.
Arguments isMesh {M}.
Arguments name {M}.
Arguments material {M}.
Arguments geometry {M}.
Arguments renderOrder {M}.
Arguments position {M}.
Arguments quaternion {M}.
Arguments scale {M}.
Arguments children {M}.

Definition setPosition {M} (o : Object3D M) (p : Vector3.t) : Object3D M :=
  mkObject3D (isMesh o) (name o) (material o) (geometry o) (renderOrder o)
             p (quaternion o) (scale o) (children o).

(** The upper left 3 x 3 block of [Matrix4.compose(position, quaternion,
    scale)], applied to a point: the rotation of [q] after the scaling. *)
Definition rotateScale (q : Quaternion.t) (scale p : Vector3.t) : Vector3.t :=
  let x := Quaternion.x q in
  let y := Quaternion.y q in
  let z := Quaternion.z q in
  let w := Quaternion.w q in
  let x2 := x + x in
  let y2 := y + y in
  let z2 := z + z in
  let xx := x * x2 in
  let xy := x * y2 in
  let xz := x * z2 in
  let yy := y * y2 in
  let yz := y * z2 in
  let zz := z * z2 in
  let wx := w * x2 in
  let wy := w * y2 in
  let wz := w * z2 in
  let sx := Vector3.x scale in
  let sy := Vector3.y scale in
  let sz := Vector3.z scale in
  let px := Vector3.x p in
  let py := Vector3.y p in
  let pz := Vector3.z p in
  Vector3.mk
    ((1 - (yy + zz)) * sx * px + (xy - wz) * sy * py + (xz + wy) * sz * pz)
    ((xy + wz) * sx * px + (1 - (xx + zz)) * sy * py + (yz - wx) * sz * pz)
    ((xz - wy) * sx * px + (yz + wx) * sy * py + (1 - (xx + yy)) * sz * pz).

(** The local matrix [Matrix4.compose(position, quaternion, scale)] applied
    to a point: the block above, then the translation column. *)
Definition localMatrix {M} (o : Object3D M) : Matrix4 :=
  fun p => Vector3.add (rotateScale (quaternion o) (scale o) p) (position o).

(** [Box3.expandByObject(object)] with the default [precise = false]: the
    box [acc] grown by the world-space box of the node's geometry, then by its
    children.  [parentWorld] is the world matrix of the parent, so the node's
    [matrixWorld] after [updateWorldMatrix] is [parentWorld] after the local
    matrix. *)
Fixpoint expandByObject {M} (acc : Box3.t) (parentWorld : Matrix4)
    (o : Object3D M) {struct o} : Box3.t :=
  let matrixWorld : Matrix4 := fun p => parentWorld (localMatrix o p) in
  let acc1 :=
    match geometry o with
    | Some g => Box3.union acc (Box3.applyMatrix4 (boundingBox g) matrixWorld)
    | None => acc
    end in
  fold_left (fun a child => expandByObject a matrixWorld child) (children o) acc1.

(** [new THREE.Box3().setFromObject(object)] for an object whose parent is
    the scene, which sits at the identity. *)
Definition setFromObject {M} (o : Object3D M) : Box3.t :=
  expandByObject Box3.empty (fun p => p) o.

(** ** Materials, textures and disposable resources *)

Module Color.
(** [THREE.Color]: three channels, JavaScript numbers. *)
Record t : Type := mk { r : float; g : float; b : float }.
End Color.

Inductive Texture : Type :=
| RoomEnvMap                  (* [metalEnv]: [pmrem.fromScene(new RoomEnvironment(), 0.04).texture] *)
| HdrEnvMap (hdr : nat)       (* [pmrem.fromEquirectangular(hdr).texture] *)
| HdrImage (hdr : nat)        (* the equirectangular image the RGBE loader hands over *)
| MaterialTexture (id : nat). (* a texture owned by a material of the loaded model *)

(** Everything with a [dispose()] that the component calls. *)
Inductive Resource : Type :=
| Controls
| DracoLoader
| GoldMaterial
| DiamondMaterial
| Tex (t : Texture)
| PMREMGenerator
| Geometry (id : nat)
| Renderer
| ModelMaterial (id : nat).

(** A material that came with the loaded model. *)
Record LoadedMaterial := mkLoadedMaterial {
  material_id : nat;
  materialColor : option Color.t;     (* [.color]; some material kinds have none *)
  materialTextures : list nat         (* its texture-valued properties, in key order *)
}.

(** The value of [obj.material] in a loaded model. *)
Inductive OldMaterial : Type :=
| NoMaterial
| OneMaterial (m : LoadedMaterial)
| MaterialArray (ms : list LoadedMaterial).

(** The value of [obj.material] in the scene: what the model came with, or a
    reference to one of the two materials shared by all meshes. *)
Inductive SceneMaterial : Type :=
| Kept (old : OldMaterial)
| GoldMat
| DiamondMat.

Record MeshStandardMaterial := mkMeshStandardMaterial {
  color : Z;
  metalness : float;
  roughness : float;
  envMapIntensity : float;
  envMap : option Texture;
  emissive : Z;
  emissiveIntensity : float;
  transparent : bool;
  opacity : float;
  depthTest : bool;
  depthWrite : bool;
  version : nat                       (* bumped by [needsUpdate = true] *)
}.

Record MeshPhysicalMaterial := mkMeshPhysicalMaterial {
  standard : MeshStandardMaterial;
  transmission : float;
  ior : float;
  thickness : float
}.

Definition set_envMap (m : MeshStandardMaterial) (e : option Texture) :=
  mkMeshStandardMaterial (color m) (metalness m) (roughness m) (envMapIntensity m)
    e (emissive m) (emissiveIntensity m) (transparent m) (opacity m)
    (depthTest m) (depthWrite m) (version m).

Definition set_envMapIntensity (m : MeshStandardMaterial) (i : float) :=
  mkMeshStandardMaterial (color m) (metalness m) (roughness m) i
    (envMap m) (emissive m) (emissiveIntensity m) (transparent m) (opacity m)
    (depthTest m) (depthWrite m) (version m).

Definition set_depthTest (m : MeshStandardMaterial) (v : bool) :=
  mkMeshStandardMaterial (color m) (metalness m) (roughness m) (envMapIntensity m)
    (envMap m) (emissive m) (emissiveIntensity m) (transparent m) (opacity m)
    v (depthWrite m) (version m).

Definition set_depthWrite (m : MeshStandardMaterial) (v : bool) :=
  mkMeshStandardMaterial (color m) (metalness m) (roughness m) (envMapIntensity m)
    (envMap m) (emissive m) (emissiveIntensity m) (transparent m) (opacity m)
    (depthTest m) v (version m).

(** [m.needsUpdate = true] *)
Definition needsUpdate (m : MeshStandardMaterial) :=
  mkMeshStandardMaterial (color m) (metalness m) (roughness m) (envMapIntensity m)
    (envMap m) (emissive m) (emissiveIntensity m) (transparent m) (opacity m)
    (depthTest m) (depthWrite m) (S (version m)).

Definition on_standard (f : MeshStandardMaterial -> MeshStandardMaterial)
    (m : MeshPhysicalMaterial) : MeshPhysicalMaterial :=
  mkMeshPhysicalMaterial (f (standard m)) (transmission m) (ior m) (thickness m).

(** [new THREE.MeshStandardMaterial({color, metalness, roughness,
    envMapIntensity})]; the other fields take the library's defaults. *)
Definition newMeshStandardMaterial (color : Z) (metalness roughness envMapIntensity : float)
    : MeshStandardMaterial :=
  mkMeshStandardMaterial color metalness roughness envMapIntensity
    None 0x000000 1 false 1 true true 0.

(** [goldMat] (lines 154-161). *)
Definition goldMat_of (metal : MetalPreset) : MeshStandardMaterial :=
  let m := newMeshStandardMaterial
             (preset_color metal)
             1.0
             (preset_roughness metal + 0.05)%float
             (envIntensity metal * 0.75)%float in
  needsUpdate (set_envMap m (Some RoomEnvMap)).

(** [diamondMat] as constructed (lines 163-179). *)
Definition diamondMat_initial : MeshPhysicalMaterial :=
  mkMeshPhysicalMaterial
    (mkMeshStandardMaterial 0xA8A9AD 0.99 0.1 5
       None 0x3a3a3a 0.5 true 1 true true 0)
    0 2.417 0.6.

(** [disposeMaterial(mat)] (lines 51-59): the [dispose()] calls it makes, in
    order. *)
Definition disposeOne (m : LoadedMaterial) : list Resource :=
  map (fun id => Tex (MaterialTexture id)) (materialTextures m)
  ++ [ModelMaterial (material_id m)].

Definition disposeMaterial (mat : OldMaterial) : list Resource :=
  match mat with
  | NoMaterial => []
  | OneMaterial m => disposeOne m
  | MaterialArray ms => flat_map disposeOne ms
  end.

(** ** Colour predicates (lines 61-69) *)

Definition isGreenish (color : option Color.t) : bool :=
  match color with
  | None => false
  | Some c =>
      (0.35 <? Color.g c)%float && (Color.r c <? 0.25)%float && (Color.b c <? 0.25)%float
  end.

Definition isBluish (color : option Color.t) : bool :=
  match color with
  | None => false
  | Some c =>
      (0.35 <? Color.b c)%float && (Color.r c <? 0.3)%float && (Color.g c <? 0.35)%float
  end.

(** ** Classification of one mesh (lines 217-245) *)

Definition nameSuggestsGem (name : string) : bool :=
  JsString.includes name "gem" ||
  JsString.includes name "stone" ||
  JsString.includes name "diamond" ||
  JsString.includes name "center" ||
  JsString.includes name "mainstone".

(** [Array.isArray(oldMat) ? oldMat[0]?.color : oldMat?.color] *)
Definition oldColor (oldMat : OldMaterial) : option Color.t :=
  match oldMat with
  | NoMaterial => None
  | OneMaterial m => materialColor m
  | MaterialArray [] => None
  | MaterialArray (m :: _) => materialColor m
  end.

Definition useGem (obj : Object3D OldMaterial) : bool :=
  let name := JsString.toLowerCase (JsString.orDefault (name obj) "") in
  nameSuggestsGem name || isBluish (oldColor (material obj)).

(** [a || f()]: the call on the right is made only when [a] is false.  The
    second component is the number of calls made. *)
Definition orCall (a : bool) (f : unit -> bool) : bool * nat :=
  if a then (true, 0%nat) else (f tt, 1%nat).

(** The three arms of the [if] / [else if] / [else] chain. *)
Inductive Branch : Type := GemArm | MetalElseIfArm | MetalElseArm.

(** The arm the chain takes for a mesh, and how many times [isGreenish] was
    called on the way. *)
Definition chooseBranch (obj : Object3D OldMaterial) : Branch * nat :=
  let useGem := useGem obj in
  let useMetal := negb useGem in
  if useGem then (GemArm, 0%nat)
  else
    let '(cond, calls) := orCall useMetal (fun _ => isGreenish (oldColor (material obj))) in
    if cond then (MetalElseIfArm, calls) else (MetalElseArm, calls).

(** ** Camera and renderer *)

(** What [updateProjectionMatrix] computed the projection matrix from.  The
    matrix is a function of these four parameters (and of zoom and view
    offset, which the component never sets), so the parameters stand for
    it. *)
Record Projection := mkProjection {
  proj_fov : R;
  proj_aspect : R;
  proj_near : R;
  proj_far : R
}.

Record PerspectiveCamera := mkPerspectiveCamera {
  fov : R;                      (* vertical field of view, in degrees *)
  aspect : R;
  near : R;
  far : R;
  camera_position : Vector3.t;
  projectionMatrix : Projection
}.

Definition updateProjectionMatrix (c : PerspectiveCamera) : PerspectiveCamera :=
  mkPerspectiveCamera (fov c) (aspect c) (near c) (far c) (camera_position c)
    (mkProjection (fov c) (aspect c) (near c) (far c)).

(** [new THREE.PerspectiveCamera(fov, aspect, near, far)]; the constructor
    ends with [updateProjectionMatrix()]. *)
Definition newPerspectiveCamera (fov aspect near far : R) : PerspectiveCamera :=
  updateProjectionMatrix
    (mkPerspectiveCamera fov aspect near far Vector3.zero (mkProjection 0 0 0 0)).

Definition set_camera_position (c : PerspectiveCamera) (p : Vector3.t) :=
  mkPerspectiveCamera (fov c) (aspect c) (near c) (far c) p (projectionMatrix c).

Definition set_aspect (c : PerspectiveCamera) (a : R) :=
  mkPerspectiveCamera (fov c) a (near c) (far c) (camera_position c) (projectionMatrix c).

Definition set_near (c : PerspectiveCamera) (n : R) :=
  mkPerspectiveCamera (fov c) (aspect c) n (far c) (camera_position c) (projectionMatrix c).

Definition set_far (c : PerspectiveCamera) (f : R) :=
  mkPerspectiveCamera (fov c) (aspect c) (near c) f (camera_position c) (projectionMatrix c).

(** The renderer's output size as [setSize] stores it, in CSS pixels. *)
Record WebGLRenderer := mkWebGLRenderer {
  width : Z;
  height : Z;
  pixelRatio : R
}.

Definition setSize (r : WebGLRenderer) (w h : Z) : WebGLRenderer :=
  mkWebGLRenderer w h (pixelRatio r).

(** The element the component is mounted in. *)
Record Container := mkContainer {
  node : nat;
  clientWidth : Z;
  clientHeight : Z
}.

(** ** The state shared by the closures of the mount effect (lines 79-319) *)

Record Viewer := mkViewer {
  scene : list (Object3D SceneMaterial);   (* [scene.children] *)
  camera : PerspectiveCamera;
  renderer : WebGLRenderer;
  canvasParent : option nat;               (* [renderer.domElement.parentNode] *)
  goldMat : MeshStandardMaterial;
  diamondMat : MeshPhysicalMaterial;
  diamondEnv : option Texture;
  ringRoot : option nat;                   (* the root's place in [scene.children] *)
  controlsTarget : Vector3.t;
  resizeListener : bool;                   (* [onResize] is registered on [window] *)
  frameRequested : bool;                   (* a [requestAnimationFrame] is pending *)
  disposed : list Resource;                (* every [dispose()] call so far, in order *)
  console : list string;                   (* model paths reported by [console.error] *)
  path : string                            (* [modelPath] *)
}.

Definition set_scene (v : Viewer) (s : list (Object3D SceneMaterial)) (root : option nat) :=
  mkViewer s (camera v) (renderer v) (canvasParent v) (goldMat v) (diamondMat v)
    (diamondEnv v) root (controlsTarget v) (resizeListener v) (frameRequested v)
    (disposed v) (console v) (path v).

Definition set_camera (v : Viewer) (c : PerspectiveCamera) :=
  mkViewer (scene v) c (renderer v) (canvasParent v) (goldMat v) (diamondMat v)
    (diamondEnv v) (ringRoot v) (controlsTarget v) (resizeListener v) (frameRequested v)
    (disposed v) (console v) (path v).

Definition set_renderer (v : Viewer) (r : WebGLRenderer) :=
  mkViewer (scene v) (camera v) r (canvasParent v) (goldMat v) (diamondMat v)
    (diamondEnv v) (ringRoot v) (controlsTarget v) (resizeListener v) (frameRequested v)
    (disposed v) (console v) (path v).

Definition set_canvasParent (v : Viewer) (p : option nat) :=
  mkViewer (scene v) (camera v) (renderer v) p (goldMat v) (diamondMat v)
    (diamondEnv v) (ringRoot v) (controlsTarget v) (resizeListener v) (frameRequested v)
    (disposed v) (console v) (path v).

Definition set_diamondMat (v : Viewer) (m : MeshPhysicalMaterial) :=
  mkViewer (scene v) (camera v) (renderer v) (canvasParent v) (goldMat v) m
    (diamondEnv v) (ringRoot v) (controlsTarget v) (resizeListener v) (frameRequested v)
    (disposed v) (console v) (path v).

Definition set_diamondEnv (v : Viewer) (e : option Texture) :=
  mkViewer (scene v) (camera v) (renderer v) (canvasParent v) (goldMat v) (diamondMat v)
    e (ringRoot v) (controlsTarget v) (resizeListener v) (frameRequested v)
    (disposed v) (console v) (path v).

Definition set_controlsTarget (v : Viewer) (t : Vector3.t) :=
  mkViewer (scene v) (camera v) (renderer v) (canvasParent v) (goldMat v) (diamondMat v)
    (diamondEnv v) (ringRoot v) t (resizeListener v) (frameRequested v)
    (disposed v) (console v) (path v).

Definition set_resizeListener (v : Viewer) (b : bool) :=
  mkViewer (scene v) (camera v) (renderer v) (canvasParent v) (goldMat v) (diamondMat v)
    (diamondEnv v) (ringRoot v) (controlsTarget v) b (frameRequested v)
    (disposed v) (console v) (path v).

Definition set_frameRequested (v : Viewer) (b : bool) :=
  mkViewer (scene v) (camera v) (renderer v) (canvasParent v) (goldMat v) (diamondMat v)
    (diamondEnv v) (ringRoot v) (controlsTarget v) (resizeListener v) b
    (disposed v) (console v) (path v).

(** A [dispose()] call on each of [rs], in order. *)
Definition dispose (v : Viewer) (rs : list Resource) :=
  mkViewer (scene v) (camera v) (renderer v) (canvasParent v) (goldMat v) (diamondMat v)
    (diamondEnv v) (ringRoot v) (controlsTarget v) (resizeListener v) (frameRequested v)
    (disposed v ++ rs) (console v) (path v).

Definition log_error (v : Viewer) (msg : string) :=
  mkViewer (scene v) (camera v) (renderer v) (canvasParent v) (goldMat v) (diamondMat v)
    (diamondEnv v) (ringRoot v) (controlsTarget v) (resizeListener v) (frameRequested v)
    (disposed v) (console v ++ [msg]) (path v).

(** The root as [ringRoot] refers to it. *)
Definition getRingRoot (v : Viewer) : option (Object3D SceneMaterial) :=
  match ringRoot v with
  | Some i => nth_error (scene v) i
  | None => None
  end.

(** ** The mount effect up to the loads (lines 80-201, 276-294) *)

(** A light: a node that is no mesh and has no geometry. *)
Definition light (px py pz : R) : Object3D SceneMaterial :=
  mkObject3D false ""%string (Kept NoMaterial) None 0%Z
    (Vector3.mk px py pz) Quaternion.identity (Vector3.mk 1 1 1) [].

Definition mountEffect (mount : Container) (devicePixelRatio : R)
    (modelPath : string) (metal : MetalPreset) : Viewer :=
  let camera :=
    set_camera_position
      (newPerspectiveCamera 45 (IZR (clientWidth mount) / IZR (clientHeight mount)) 0.01 1000)
      (Vector3.mk 0 0.6 2.4) in
  let renderer :=
    mkWebGLRenderer (clientWidth mount) (clientHeight mount) (Rmin devicePixelRatio 2) in
  mkViewer
    [ light 0 0 0; light 0 1 0; light 4 6 3; light (-2) 4 (-6) ]
    camera
    renderer
    (Some (node mount))
    (goldMat_of metal)
    diamondMat_initial
    None
    None
    Vector3.zero
    true
    true
    []
    []
    modelPath.

(** The body of [useEffect]: nothing is set up while the ref has no node. *)
Definition useEffect_body (mountRef : option Container) (devicePixelRatio : R)
    (modelPath : string) (metal : MetalPreset) : option Viewer :=
  match mountRef with
  | None => None
  | Some mount => Some (mountEffect mount devicePixelRatio modelPath metal)
  end.

(** ** The continuations of the HDR load (lines 185-200) *)

Definition onHdrLoaded (hdr : nat) (v : Viewer) : Viewer :=
  let env := HdrEnvMap hdr in
  let v := set_diamondEnv v (Some env) in
  let v := set_diamondMat v
             (on_standard (fun m => needsUpdate (set_envMap m (Some env))) (diamondMat v)) in
  dispose v [Tex (HdrImage hdr)].

Definition onHdrError (v : Viewer) : Viewer :=
  set_diamondMat v
    (on_standard
       (fun m => needsUpdate (set_envMapIntensity (set_envMap m (Some RoomEnvMap)) 6))
       (diamondMat v)).

(** ** The continuations of the model load (lines 210-273) *)

(** [Object3D.traverse(callback)]: the callback on the node, then the
    traversal of each child, in order.  The callback rewrites the node's
    [material] and [renderOrder] and acts on the state [S] of its closure. *)
Fixpoint traverse {A B S : Type} (callback : Object3D A -> S -> B * Z * S)
    (o : Object3D A) (s : S) {struct o} : Object3D B * S :=
  let '(m, order, s1) := callback o s in
  let '(cs, s2) :=
    (fix each (cs : list (Object3D A)) (s : S) : list (Object3D B) * S :=
       match cs with
       | [] => ([], s)
       | c :: rest =>
           let '(c', s') := traverse callback c s in
           let '(rest', s'') := each rest s' in
           (c' :: rest', s'')
       end) (children o) s1 in
  (mkObject3D (isMesh o) (name o) m (geometry o) order
     (position o) (quaternion o) (scale o) cs, s2).

(** The loop of [traverse] over the children, by itself. *)
Definition traverseEach {A B S : Type} (callback : Object3D A -> S -> B * Z * S)
    : list (Object3D A) -> S -> list (Object3D B) * S :=
  fix each (cs : list (Object3D A)) (s : S) : list (Object3D B) * S :=
    match cs with
    | [] => ([], s)
    | c :: rest =>
        let '(c', s') := traverse callback c s in
        let '(rest', s'') := each rest s' in
        (c' :: rest', s'')
    end.

(** The callback of line 214.  The gem arm writes [depthTest] and
    [depthWrite] through [obj.material], which by then is the shared
    [diamondMat]. *)
Definition classifyMesh (obj : Object3D OldMaterial) (v : Viewer)
    : SceneMaterial * Z * Viewer :=
  if negb (isMesh obj) then (Kept (material obj), renderOrder obj, v)
  else
    let oldMat := material obj in
    let '(m, order, v1) :=
      match fst (chooseBranch obj) with
      | GemArm =>
          (DiamondMat, 2%Z,
           set_diamondMat v
             (on_standard (fun m => set_depthWrite (set_depthTest m true) false)
                (diamondMat v)))
      | MetalElseIfArm => (GoldMat, 0%Z, v)
      | MetalElseArm => (GoldMat, 0%Z, v)
      end in
    (m, order, dispose v1 (disposeMaterial oldMat)).

(** The camera fit of lines 256-265 for a bounding sphere of radius
    [sphereRadius]. *)
Definition fitCamera (sphereRadius : R) (camera : PerspectiveCamera) : PerspectiveCamera :=
  let radius := Rmax 0.001 sphereRadius in
  let dist := radius / tan (degToRad (fov camera / 2)) in
  let camera := set_camera_position camera (Vector3.mk 0 (radius * 0.35) (dist * 1.22)) in
  let camera := set_near camera (Rmax 0.001 (dist / 100)) in
  let camera := set_far camera (dist * 100) in
  updateProjectionMatrix camera.

(** The success continuation; [gltfScene] is [gltf.scene].  The root is put
    under the scene once its fields have their final values.  The closing
    [controls.update()] re-derives the camera position from its offset to the
    target; for a rig at rest that is the position it finds, so the camera is
    left as the fit set it. *)
Definition onModelLoaded (gltfScene : Object3D OldMaterial) (v : Viewer) : Viewer :=
  let '(root, v) := traverse classifyMesh gltfScene v in
  let box := setFromObject root in
  let center := Box3.getCenter box in
  let root := setPosition root (Vector3.sub (position root) center) in
  let v := set_scene v (scene v ++ [root]) (Some (List.length (scene v))) in
  let sphere := Box3.getBoundingSphere box in
  let v := set_camera v (fitCamera (Sphere.radius sphere) (camera v)) in
  set_controlsTarget v (Vector3.mk 0 0 0).

(** The failure continuation. *)
Definition onModelError (v : Viewer) : Viewer := log_error v (path v).

(** ** Resize (lines 287-293) *)

(** [onResize], with the container's client size at the time of the call. *)
Definition onResize (w h : Z) (v : Viewer) : Viewer :=
  let camera := updateProjectionMatrix (set_aspect (camera v) (IZR w / IZR h)) in
  let v := set_camera v camera in
  set_renderer v (setSize (renderer v) w h).

(** ** Teardown (lines 297-318) *)

Inductive JsError : Type := TypeError | NotFoundError.

Inductive Result (A : Type) : Type :=
| Ok (a : A)
| Throw (e : JsError).

Arguments Ok {A}.
Arguments Throw {A}.

(** A statement: it leaves a new state or throws. *)
Definition Action : Type := Viewer -> Result Viewer.

Definition andThen (a b : Action) : Action :=
  fun v => match a v with
           | Ok v' => b v'
           | Throw e => Throw e
           end.

Notation "a ;; b" := (andThen a b) (at level 61, right associativity).

Definition skip : Action := fun v => Ok v.

(** A statement that cannot throw. *)
Definition does (f : Viewer -> Viewer) : Action := fun v => Ok (f v).

(** [receiver.method()]: a [TypeError] when the receiver is [null] or
    [undefined]. *)
Definition callMethod {A} (receiver : option A) (method : A -> Action) : Action :=
  match receiver with
  | Some a => method a
  | None => fun _ => Throw TypeError
  end.

(** [receiver?.method?.()]: nothing happens when the receiver is [null] or
    [undefined]. *)
Definition optionalCall {A} (receiver : option A) (method : A -> Action) : Action :=
  match receiver with
  | Some a => method a
  | None => skip
  end.

(** [parent.removeChild(renderer.domElement)]: the DOM throws
    [NotFoundError] unless the canvas is a child of [parent]. *)
Definition removeChild (parent : nat) : Action :=
  fun v => match canvasParent v with
           | Some p => if Nat.eqb p parent then Ok (set_canvasParent v None)
                       else Throw NotFoundError
           | None => Throw NotFoundError
           end.

(** [Object3D.traverse] with a callback that only acts on the state. *)
Fixpoint traverseDo {M} (callback : Object3D M -> Action) (o : Object3D M) {struct o}
    : Action :=
  callback o ;;
  (fix each (cs : list (Object3D M)) : Action :=
     match cs with
     | [] => skip
     | c :: rest => traverseDo callback c ;; each rest
     end) (children o).

(** The loop of [traverseDo] over the children, by itself. *)
Definition traverseDoEach {M} (callback : Object3D M -> Action)
    : list (Object3D M) -> Action :=
  fix each (cs : list (Object3D M)) : Action :=
    match cs with
    | [] => skip
    | c :: rest => traverseDo callback c ;; each rest
    end.

(** [scene.traverse(callback)]: the scene itself is no mesh; then its
    children in order. *)
Fixpoint sceneTraverse (callback : Object3D SceneMaterial -> Action)
    (cs : list (Object3D SceneMaterial)) : Action :=
  match cs with
  | [] => skip
  | c :: rest => traverseDo callback c ;; sceneTraverse callback rest
  end.

Definition disposeGeometry (obj : Object3D SceneMaterial) : Action :=
  if negb (isMesh obj) then skip
  else optionalCall (geometry obj) (fun g => does (fun v => dispose v [Geometry (geometry_id g)])).

(** The function the effect returns. *)
Definition cleanup : Action :=
  does (fun v => set_resizeListener v false) ;;
  does (fun v => set_frameRequested v false) ;;
  does (fun v => dispose v [Controls]) ;;
  does (fun v => dispose v [DracoLoader]) ;;
  does (fun v => dispose v [GoldMaterial]) ;;
  does (fun v => dispose v [DiamondMaterial]) ;;
  optionalCall (Some RoomEnvMap) (fun t => does (fun v => dispose v [Tex t])) ;;
  (fun v => match diamondEnv v with
            | Some _ => callMethod (diamondEnv v) (fun t => does (fun v => dispose v [Tex t])) v
            | None => Ok v
            end) ;;
  does (fun v => dispose v [PMREMGenerator]) ;;
  (fun v => sceneTraverse disposeGeometry (scene v) v) ;;
  does (fun v => dispose v [Renderer]) ;;
  (fun v => optionalCall (canvasParent v) removeChild v).

(** ** Events after the mount *)

(** What can happen to a mounted viewer.  The animation frame is left out:
    it turns the root about its vertical axis, lets the orbit controls move
    the camera and draws; it touches neither the materials, nor the
    membership of the scene, nor the field of view, nor any [dispose()]. *)

Inductive Event : Type :=
| HdrLoaded (hdr : nat)
| HdrError
| ModelLoaded (gltfScene : Object3D OldMaterial)
| ModelError
| WindowResize (w h : Z)       (* the container's client size when the event fires *)
| Cleanup.

Definition step (e : Event) : Action :=
  match e with
  | HdrLoaded hdr => does (onHdrLoaded hdr)
  | HdrError => does onHdrError
  | ModelLoaded gltfScene => does (onModelLoaded gltfScene)
  | ModelError => does onModelError
  | WindowResize w h =>
      fun v => if resizeListener v then Ok (onResize w h v) else Ok v
  | Cleanup => cleanup
  end.

Fixpoint run (es : list Event) : Action :=
  match es with
  | [] => skip
  | e :: rest => step e ;; run rest
  end.

(** ** Vocabulary of the statements *)

(** The nodes of a graph in the order [traverse] visits them. *)
Fixpoint nodes {M} (o : Object3D M) : list (Object3D M) :=
  o :: flat_map nodes (children o).

(** The geometries of the meshes of a graph, one entry per mesh. *)
Definition meshGeometryIds {M} (o : Object3D M) : list nat :=
  flat_map (fun n => if isMesh n
                     then match geometry n with
                          | Some g => [geometry_id g]
                          | None => []
                          end
                     else [])
           (nodes o).

(** [sub] occurs in [s]. *)
Definition contains (s sub : string) : Prop :=
  exists before after : string, s = (before ++ sub ++ after)%string.

Definition gemName (lower : string) : Prop :=
  contains lower "gem" \/ contains lower "stone" \/ contains lower "diamond" \/
  contains lower "center" \/ contains lower "mainstone".

(** blue > 0.35 and red < 0.3 and green < 0.35 *)
Definition bluish (c : Color.t) : Prop :=
  (0.35 <? Color.b c)%float = true /\
  (Color.r c <? 0.3)%float = true /\
  (Color.g c <? 0.35)%float = true.

(** The condition under which the specification gives a mesh the gem
    material. *)
Definition gemCondition (obj : Object3D OldMaterial) : Prop :=
  gemName (JsString.toLowerCase (name obj)) \/
  exists c, oldColor (material obj) = Some c /\ bluish c.

(** What the specification says of a mesh [obj] of the loaded model and the
    node [obj'] it has become in the scene. *)
Definition classifiedAs (obj : Object3D OldMaterial) (obj' : Object3D SceneMaterial) : Prop :=
  isMesh obj = true ->
  (material obj' = DiamondMat <-> gemCondition obj) /\
  (gemCondition obj -> renderOrder obj' = 2%Z) /\
  (~ gemCondition obj -> material obj' = GoldMat /\ renderOrder obj' = 0%Z).


Definition Resource_eq_dec (a b : Resource) : {a = b} + {a <> b}.
Proof.
  decide equality; try apply Nat.eq_dec.
  decide equality; apply Nat.eq_dec.
Defined.

(** How many times [dispose()] was called on [r]. *)
Definition disposals (r : Resource) (v : Viewer) : nat :=
  count_occ Resource_eq_dec (disposed v) r.

(** The resources the mount effect itself creates and the teardown names. *)
Definition mountResources : list Resource :=
  [Controls; DracoLoader; GoldMaterial; DiamondMaterial; Tex RoomEnvMap;
   PMREMGenerator; Renderer].

(** The geometries of the meshes loaded along a run, one entry per mesh. *)
Definition loadedGeometryIds (es : list Event) : list nat :=
  flat_map (fun e => match e with
                     | ModelLoaded gltfScene => meshGeometryIds gltfScene
                     | _ => []
                     end) es.

(** The HDR images handed to the success continuation along a run. *)
Definition hdrLoads (es : list Event) : list nat :=
  flat_map (fun e => match e with
                     | HdrLoaded hdr => [hdr]
                     | _ => []
                     end) es.

(** The state the teardown leaves. *)
Definition afterCleanup (v : Viewer) : Viewer :=
  let v1 := set_frameRequested (set_resizeListener v false) false in
  set_canvasParent
    (dispose v1
       ([Controls; DracoLoader; GoldMaterial; DiamondMaterial; Tex RoomEnvMap]
        ++ match diamondEnv v with
           | Some t => [Tex t]
           | None => []
           end
        ++ [PMREMGenerator]
        ++ map Geometry (flat_map meshGeometryIds (scene v))
        ++ [Renderer]))
    None.

(** The resources that are disposed while loading rather than by the
    teardown: the HDR image and what the replaced materials own. *)
Definition disposedOnLoad (r : Resource) : Prop :=
  match r with
  | Tex (HdrImage _) | Tex (MaterialTexture _) | ModelMaterial _ => True
  | _ => False
  end.

(** The gem material is set up for compositing over the metal. *)
Definition gemDepthFlags (v : Viewer) : Prop :=
  depthTest (standard (diamondMat v)) = true /\
  depthWrite (standard (diamondMat v)) = false.

(** What the classification callback leaves alone. *)
Definition keptByClassification (v v' : Viewer) : Prop :=
  scene v' = scene v /\
  camera v' = camera v /\
  diamondEnv v' = diamondEnv v /\
  envMap (standard (diamondMat v')) = envMap (standard (diamondMat v)) /\
  envMapIntensity (standard (diamondMat v')) = envMapIntensity (standard (diamondMat v)).

(** The state an event leaves, given that its handler does not throw. *)
Definition next (e : Event) (v : Viewer) : Viewer :=
  match e with
  | HdrLoaded hdr => onHdrLoaded hdr v
  | HdrError => onHdrError v
  | ModelLoaded gltfScene => onModelLoaded gltfScene v
  | ModelError => onModelError v
  | WindowResize w h => if resizeListener v then onResize w h v else v
  | Cleanup => afterCleanup v
  end.

Definition runTo (es : list Event) (v : Viewer) : Viewer :=
  fold_left (fun v e => next e v) es v.

(** The fallback the error continuation of the HDR load installs. *)
Definition fallbackInstalled (v : Viewer) : Prop :=
  envMap (standard (diamondMat v)) = Some RoomEnvMap /\
  envMapIntensity (standard (diamondMat v)) = 6%float.

(** ** Sample inputs *)

Definition plainMaterial (id : nat) (c : option Color.t) : OldMaterial :=
  OneMaterial (mkLoadedMaterial id c []).

Definition meshNode (name : string) (mat : OldMaterial) (geom : nat)
    (cs : list (Object3D OldMaterial)) : Object3D OldMaterial :=
  mkObject3D true name mat
    (Some (mkBufferGeometry geom (Some (Vector3.mk 0 0 0, Vector3.mk 1 1 1))))
    0%Z Vector3.zero Quaternion.identity (Vector3.mk 1 1 1) cs.

Definition groupNode (cs : list (Object3D OldMaterial)) : Object3D OldMaterial :=
  mkObject3D false "Scene"%string NoMaterial None
    0%Z Vector3.zero Quaternion.identity (Vector3.mk 1 1 1) cs.

(** A band whose material is green: green 0.5, red and blue 0.1. *)
Definition greenBand : Object3D OldMaterial :=
  meshNode "band" (plainMaterial 1 (Some (Color.mk 0.1 0.5 0.1))) 1 [].

(** Two prongs that are instances of one geometry, as a glTF file with two
    nodes referring to one mesh loads. *)
Definition twinProngs : Object3D OldMaterial :=
  groupNode [ meshNode "prong_1" (plainMaterial 1 None) 7 [];
              meshNode "prong_2" (plainMaterial 1 None) 7 [] ].

Definition sampleMount : Container := mkContainer 0 800 520.

Definition yellowGold : MetalPreset := mkMetalPreset "Yellow Gold" 0xe3bb5e 0.1 2.2.

Definition sampleViewer : Viewer :=
  mountEffect sampleMount 1 "/models/ring6.glb" yellowGold.

(** ** Vocabulary of the further statements *)

(** The children the scene has once the mount effect has run. *)
Definition mountLights : list (Object3D SceneMaterial) :=
  [ light 0 0 0; light 0 1 0; light 4 6 3; light (-2) 4 (-6) ].

(** The [dispose()] calls [disposeMaterial] makes along the traversal of a
    loaded model: those for the original material of each mesh, in visiting
    order. *)
Definition replacedMaterials (g : Object3D OldMaterial) : list Resource :=
  flat_map (fun n => if isMesh n then disposeMaterial (material n) else [])
           (nodes g).

(** The [dispose()] calls the handler of an event other than the teardown
    makes. *)
Definition loadLog (e : Event) : list Resource :=
  match e with
  | HdrLoaded hdr => [Tex (HdrImage hdr)]
  | ModelLoaded gltfScene => replacedMaterials gltfScene
  | _ => []
  end.

Definition isCleanup (e : Event) : bool :=
  match e with
  | Cleanup => true
  | _ => false
  end.

(** How many times the teardown runs along a run. *)
Definition teardowns (es : list Event) : nat :=
  List.length (filter isCleanup es).

(** What the traversal keeps of a node [obj] in the node [obj'] it makes of
    it; a node that is no mesh also keeps its material and render order. *)
Definition keptNode (obj : Object3D OldMaterial) (obj' : Object3D SceneMaterial) : Prop :=
  isMesh obj' = isMesh obj /\
  name obj' = name obj /\
  geometry obj' = geometry obj /\
  quaternion obj' = quaternion obj /\
  scale obj' = scale obj /\
  (isMesh obj = false ->
   material obj' = Kept (material obj) /\ renderOrder obj' = renderOrder obj).

(** The projection matrix is the one of the camera's current parameters. *)
Definition inSync (c : PerspectiveCamera) : Prop :=
  projectionMatrix c = mkProjection (fov c) (aspect c) (near c) (far c).

(** The variable [diamondEnv] holds nothing or an HDR environment map. *)
Definition envIsHdr (v : Viewer) : Prop :=
  match diamondEnv v with
  | None | Some (HdrEnvMap _) => True
  | _ => False
  end.


(** A colour channel that is not a number. *)
Definition hasNaN (c : Color.t) : Prop :=
  Color.r c = PrimFloat.nan \/ Color.g c = PrimFloat.nan \/ Color.b c = PrimFloat.nan.

(** The two writes of the gem arm on the material it shares. *)
Definition withGemDepthFlags (m : MeshPhysicalMaterial) : MeshPhysicalMaterial :=
  on_standard (fun m => set_depthWrite (set_depthTest m true) false) m.

(** ** Proof steps that recur *)

(** Unfolds the teardown and the field updates of a viewer whose fields are
    at hand. *)
Ltac viewer_fields :=
  cbv beta iota delta
    [cleanup afterCleanup andThen does skip optionalCall callMethod removeChild
     dispose set_frameRequested set_resizeListener set_canvasParent
     scene camera renderer canvasParent goldMat diamondMat diamondEnv ringRoot
     controlsTarget resizeListener frameRequested disposed console path].

(** Counts an element in a list of resources that is written out. *)
Ltac count_concrete :=
  repeat first
    [ rewrite count_occ_cons_eq by reflexivity
    | rewrite count_occ_cons_neq by discriminate
    | rewrite count_occ_nil ].

(** * Properties *)

(** ** Strings *)

Lemma prefix_iff (sub s : string) :
  String.prefix sub s = true <-> exists after, s = (sub ++ after)%string.
Proof.
  revert s. induction sub as [|c sub IH]; intros s; simpl.
  - split; [intros _; exists s; reflexivity | intros _; destruct s; reflexivity].
  - destruct s as [|d s]; simpl.
    + split; [discriminate | intros [after H]; discriminate].
    + destruct (Ascii.ascii_dec c d) as [->|Hcd].
      * rewrite IH. split; intros [after H]; exists after; congruence.
      * split; [discriminate | intros [after H]; congruence].
Qed.

Lemma includes_unfold (s sub : string) :
  JsString.includes s sub =
  String.prefix sub s ||
  match s with
  | EmptyString => false
  | String _ rest => JsString.includes rest sub
  end.
Proof. destruct s; reflexivity. Qed.

Lemma includes_iff (s sub : string) :
  JsString.includes s sub = true <-> contains s sub.
Proof.
  split.
  - induction s as [|c s IH]; rewrite includes_unfold; intros H;
      apply orb_true_iff in H; destruct H as [H|H]; try discriminate.
    + apply prefix_iff in H. destruct H as [after ->]. exists ""%string, after. reflexivity.
    + apply prefix_iff in H. destruct H as [after ->]. exists ""%string, after. reflexivity.
    + destruct (IH H) as (before & after & ->).
      exists (String c before), after. reflexivity.
  - intros (before & after & ->). induction before as [|c before IH].
    + simpl. rewrite includes_unfold.
      replace (String.prefix sub (sub ++ after)) with true; [reflexivity|].
      symmetry. apply prefix_iff. exists after. reflexivity.
    + change (String c before ++ sub ++ after)%string
        with (String c (before ++ sub ++ after)).
      rewrite includes_unfold, IH. apply orb_true_r.
Qed.

Lemma orDefault_empty (s : string) : JsString.orDefault s "" = s.
Proof. destruct s; reflexivity. Qed.

Lemma nameSuggestsGem_iff (lower : string) :
  nameSuggestsGem lower = true <-> gemName lower.
Proof.
  unfold nameSuggestsGem, gemName.
  rewrite !orb_true_iff, !includes_iff. tauto.
Qed.

Lemma isBluish_iff (color : option Color.t) :
  isBluish color = true <-> exists c, color = Some c /\ bluish c.
Proof.
  unfold isBluish, bluish. destruct color as [c|].
  - rewrite !andb_true_iff. split.
    + intros [[Hb Hr] Hg]. exists c. auto.
    + intros (c' & Hc & Hb & Hr & Hg). injection Hc as <-. auto.
  - split; [discriminate | intros (c & Hc & _); discriminate].
Qed.

Lemma useGem_iff (obj : Object3D OldMaterial) :
  useGem obj = true <-> gemCondition obj.
Proof.
  unfold useGem, gemCondition.
  rewrite orDefault_empty, orb_true_iff, nameSuggestsGem_iff, isBluish_iff.
  reflexivity.
Qed.

(** ** The [if] chain *)

Lemma chooseBranch_cases (obj : Object3D OldMaterial) :
  chooseBranch obj = if useGem obj then (GemArm, 0%nat) else (MetalElseIfArm, 0%nat).
Proof. unfold chooseBranch. destruct (useGem obj); reflexivity. Qed.

(** What the callback does to a mesh, arm by arm. *)
Lemma classifyMesh_mesh (obj : Object3D OldMaterial) (v : Viewer) :
  isMesh obj = true ->
  classifyMesh obj v =
  if useGem obj
  then (DiamondMat, 2%Z,
        dispose (set_diamondMat v
                   (on_standard (fun m => set_depthWrite (set_depthTest m true) false)
                      (diamondMat v)))
                (disposeMaterial (material obj)))
  else (GoldMat, 0%Z, dispose v (disposeMaterial (material obj))).
Proof.
  intros Hmesh. unfold classifyMesh. rewrite Hmesh, chooseBranch_cases. simpl.
  destruct (useGem obj); reflexivity.
Qed.

Lemma classifyMesh_other (obj : Object3D OldMaterial) (v : Viewer) :
  isMesh obj = false ->
  classifyMesh obj v = (Kept (material obj), renderOrder obj, v).
Proof. intros H. unfold classifyMesh. rewrite H. reflexivity. Qed.

(** ** Traversal *)

(** Induction on a scene graph: the children come with the property. *)
Lemma Object3D_forall_ind {M : Type} (P : Object3D M -> Prop) :
  (forall o, Forall P (children o) -> P o) -> forall o, P o.
Proof.
  intros step.
  exact (fix IH (o : Object3D M) : P o :=
           step o
             (match o return Forall P (children o) with
              | mkObject3D _ _ _ _ _ _ _ _ cs =>
                  (fix all (l : list (Object3D M)) : Forall P l :=
                     match l with
                     | [] => Forall_nil P
                     | c :: rest => Forall_cons c (IH c) (all rest)
                     end) cs
              end)).
Qed.

Lemma traverse_unfold {A B S : Type} (cb : Object3D A -> S -> B * Z * S)
    (o : Object3D A) (s : S) :
  traverse cb o s =
  let '(m, order, s1) := cb o s in
  let '(cs, s2) := traverseEach cb (children o) s1 in
  (mkObject3D (isMesh o) (name o) m (geometry o) order
     (position o) (quaternion o) (scale o) cs, s2).
Proof. destruct o; reflexivity. Qed.

Lemma traverseEach_cons {A B S : Type} (cb : Object3D A -> S -> B * Z * S)
    (c : Object3D A) (rest : list (Object3D A)) (s : S) :
  traverseEach cb (c :: rest) s =
  let '(c', s') := traverse cb c s in
  let '(rest', s'') := traverseEach cb rest s' in
  (c' :: rest', s'').
Proof. reflexivity. Qed.

Section TraverseFacts.

Context {A B S : Type} (cb : Object3D A -> S -> B * Z * S).

(** A property of the state that the callback keeps is kept by the
    traversal. *)
Lemma traverse_keeps (I : S -> Prop) :
  (forall o s, I s -> I (snd (cb o s))) ->
  forall o s, I s -> I (snd (traverse cb o s)).
Proof.
  intros Hcb o. induction o as [o IH] using Object3D_forall_ind. intros s Hs.
  rewrite traverse_unfold.
  specialize (Hcb o s Hs). destruct (cb o s) as [[m order] s1]. simpl in Hcb.
  revert s1 Hcb. induction IH as [|c rest Hc _ IHrest]; intros s1 Hs1.
  - exact Hs1.
  - rewrite traverseEach_cons.
    specialize (Hc s1 Hs1). destruct (traverse cb c s1) as [c' s']. simpl in Hc.
    specialize (IHrest s' Hc).
    destruct (traverseEach cb rest s') as [rest' s'']. exact IHrest.
Qed.

Lemma traverseEach_keeps (I : S -> Prop) :
  (forall o s, I s -> I (snd (cb o s))) ->
  forall cs s, I s -> I (snd (traverseEach cb cs s)).
Proof.
  intros Hcb cs. induction cs as [|c rest IH]; intros s Hs.
  - exact Hs.
  - rewrite traverseEach_cons.
    pose proof (traverse_keeps I Hcb c s Hs) as Hc.
    destruct (traverse cb c s) as [c' s']. simpl in Hc.
    specialize (IH s' Hc). destruct (traverseEach cb rest s') as [rest' s'']. exact IH.
Qed.

(** A property that the callback establishes at one node of the graph, and
    keeps at the others, holds after the traversal. *)
Lemma traverse_establishes (J : S -> Prop) :
  (forall o s, J s -> J (snd (cb o s))) ->
  forall o n, In n (nodes o) -> (forall s, J (snd (cb n s))) ->
  forall s, J (snd (traverse cb o s)).
Proof.
  intros Hkeep o. induction o as [o IH] using Object3D_forall_ind.
  intros n Hn Hset s. rewrite traverse_unfold.
  destruct o as [im nm mt gm ro ps qt sc cs]. simpl in *.
  destruct Hn as [<-|Hn].
  - pose proof (Hset s) as H1.
    destruct (cb _ s) as [[m order] s1]. simpl in H1.
    pose proof (traverseEach_keeps J Hkeep cs s1 H1) as H2.
    destruct (traverseEach cb cs s1) as [cs' s2]. exact H2.
  - destruct (cb _ s) as [[m order] s1]. clear s.
    enough (J (snd (traverseEach cb cs s1))) as H2
      by (destruct (traverseEach cb cs s1) as [cs' s2]; exact H2).
    revert s1. induction IH as [|c rest Hc _ IHrest]; intros s1.
    + destruct Hn.
    + simpl in Hn. apply in_app_or in Hn. rewrite traverseEach_cons.
      destruct Hn as [Hn|Hn].
      * pose proof (Hc n Hn Hset s1) as H1.
        destruct (traverse cb c s1) as [c' s']. simpl in H1.
        pose proof (traverseEach_keeps J Hkeep rest s' H1) as H2.
        destruct (traverseEach cb rest s') as [rest' s'']. exact H2.
      * destruct (traverse cb c s1) as [c' s'].
        specialize (IHrest Hn s').
        destruct (traverseEach cb rest s') as [rest' s'']. exact IHrest.
Qed.

(** The traversal relates the nodes one to one, in visiting order, whenever
    the callback relates a node to what it makes of it. *)
Lemma traverse_nodes (Rel : Object3D A -> Object3D B -> Prop) :
  (forall o s cs',
      Rel o (mkObject3D (isMesh o) (name o) (fst (fst (cb o s))) (geometry o)
               (snd (fst (cb o s))) (position o) (quaternion o) (scale o) cs')) ->
  forall o s, Forall2 Rel (nodes o) (nodes (fst (traverse cb o s))).
Proof.
  intros Hcb o. induction o as [o IH] using Object3D_forall_ind. intros s.
  rewrite traverse_unfold.
  pose proof (Hcb o s) as Hhead.
  destruct (cb o s) as [[m order] s1]. simpl in Hhead.
  assert (Hrest : forall s1,
             Forall2 Rel (flat_map nodes (children o))
               (flat_map nodes (fst (traverseEach cb (children o) s1)))).
  { clear Hhead s1. induction IH as [|c rest Hc _ IHrest]; intros s1.
    - constructor.
    - rewrite traverseEach_cons. specialize (Hc s1).
      destruct (traverse cb c s1) as [c' s']. specialize (IHrest s').
      destruct (traverseEach cb rest s') as [rest' s'']. simpl in *.
      apply Forall2_app; assumption. }
  specialize (Hrest s1). destruct (traverseEach cb (children o) s1) as [cs' s2].
  destruct o; simpl in *. constructor; [apply Hhead | exact Hrest].
Qed.

(** The traversal changes neither the geometry nor the placement of a
    node. *)
Lemma traverse_expandByObject (o : Object3D A) :
  forall s acc world,
    expandByObject acc world (fst (traverse cb o s)) = expandByObject acc world o.
Proof.
  induction o as [o IH] using Object3D_forall_ind. intros s acc world.
  rewrite traverse_unfold. destruct (cb o s) as [[m order] s1].
  assert (Hrest : forall s1 acc w,
             fold_left (fun a child => expandByObject a w child)
               (fst (traverseEach cb (children o) s1)) acc
             = fold_left (fun a child => expandByObject a w child) (children o) acc).
  { clear s1. induction IH as [|c rest Hc _ IHrest]; intros s1 acc1 w.
    - reflexivity.
    - rewrite traverseEach_cons. specialize (Hc s1 acc1 w).
      destruct (traverse cb c s1) as [c' s']. specialize (IHrest s').
      destruct (traverseEach cb rest s') as [rest' s'']. simpl in *.
      rewrite Hc. apply IHrest. }
  specialize (Hrest s1). destruct (traverseEach cb (children o) s1) as [cs' s2].
  destruct o; simpl in *. apply Hrest.
Qed.

Lemma traverse_position (o : Object3D A) (s : S) :
  position (fst (traverse cb o s)) = position o.
Proof.
  rewrite traverse_unfold. destruct (cb o s) as [[m order] s1].
  destruct (traverseEach cb (children o) s1). reflexivity.
Qed.

End TraverseFacts.

(** ** The classification callback *)

Lemma classifyMesh_keeps (v0 : Viewer) (o : Object3D OldMaterial) (s : Viewer) :
  keptByClassification v0 s -> keptByClassification v0 (snd (classifyMesh o s)).
Proof.
  intros H. destruct (isMesh o) eqn:Hmesh.
  - rewrite (classifyMesh_mesh o s Hmesh). destruct (useGem o); exact H.
  - rewrite (classifyMesh_other o s Hmesh). exact H.
Qed.

Lemma classifyMesh_keeps_flags (o : Object3D OldMaterial) (s : Viewer) :
  gemDepthFlags s -> gemDepthFlags (snd (classifyMesh o s)).
Proof.
  intros H. destruct (isMesh o) eqn:Hmesh.
  - rewrite (classifyMesh_mesh o s Hmesh). destruct (useGem o); [split; reflexivity | exact H].
  - rewrite (classifyMesh_other o s Hmesh). exact H.
Qed.

Lemma classifyMesh_sets_flags (o : Object3D OldMaterial) :
  isMesh o = true -> gemCondition o ->
  forall s, gemDepthFlags (snd (classifyMesh o s)).
Proof.
  intros Hmesh Hgem s. apply useGem_iff in Hgem.
  rewrite (classifyMesh_mesh o s Hmesh), Hgem. split; reflexivity.
Qed.

Lemma disposeMaterial_onLoad (mat : OldMaterial) :
  Forall disposedOnLoad (disposeMaterial mat).
Proof.
  assert (Hone : forall m, Forall disposedOnLoad (disposeOne m)).
  { intros m. unfold disposeOne. apply Forall_app. split.
    - apply Forall_forall. intros r Hr. apply in_map_iff in Hr.
      destruct Hr as (id & <- & _). exact I.
    - repeat constructor. }
  destruct mat as [|m|ms]; simpl.
  - constructor.
  - apply Hone.
  - induction ms as [|m ms IH]; simpl; [constructor|].
    apply Forall_app. split; [apply Hone | exact IH].
Qed.

Lemma classifyMesh_disposed (o : Object3D OldMaterial) (s : Viewer) :
  Forall disposedOnLoad (disposed s) ->
  Forall disposedOnLoad (disposed (snd (classifyMesh o s))).
Proof.
  intros H. destruct (isMesh o) eqn:Hmesh.
  - rewrite (classifyMesh_mesh o s Hmesh).
    destruct (useGem o); simpl; apply Forall_app; split;
      auto using disposeMaterial_onLoad.
  - rewrite (classifyMesh_other o s Hmesh). exact H.
Qed.

Lemma classifyMesh_classifies (o : Object3D OldMaterial) (s : Viewer)
    (cs' : list (Object3D SceneMaterial)) :
  classifiedAs o
    (mkObject3D (isMesh o) (name o) (fst (fst (classifyMesh o s))) (geometry o)
       (snd (fst (classifyMesh o s))) (position o) (quaternion o) (scale o) cs').
Proof.
  intros Hmesh. rewrite (classifyMesh_mesh o s Hmesh).
  pose proof (useGem_iff o) as Hiff.
  destruct (useGem o); simpl.
  - assert (gemCondition o) as Hgem by (apply Hiff; reflexivity).
    split; [split; [intros _; exact Hgem | reflexivity]|].
    split; [reflexivity | intros Hn; contradiction].
  - assert (~ gemCondition o) as Hn by (intros Hg; apply Hiff in Hg; discriminate).
    split; [split; [discriminate | intros Hg; contradiction]|].
    split; [intros Hg; contradiction | intros _; split; reflexivity].
Qed.

(** ** The success continuation of the model load, field by field *)

Lemma onModelLoaded_eq (g : Object3D OldMaterial) (v : Viewer) :
  let root := fst (traverse classifyMesh g v) in
  let v1 := snd (traverse classifyMesh g v) in
  let box := setFromObject root in
  onModelLoaded g v =
  set_controlsTarget
    (set_camera
       (set_scene v1
          (scene v1 ++ [setPosition root (Vector3.sub (position root) (Box3.getCenter box))])
          (Some (List.length (scene v1))))
       (fitCamera (Sphere.radius (Box3.getBoundingSphere box)) (camera v1)))
    (Vector3.mk 0 0 0).
Proof.
  unfold onModelLoaded. destruct (traverse classifyMesh g v) as [root v1]. reflexivity.
Qed.

Lemma traversal_keeps (g : Object3D OldMaterial) (v : Viewer) :
  keptByClassification v (snd (traverse classifyMesh g v)).
Proof.
  apply (traverse_keeps classifyMesh (keptByClassification v)).
  - intros o s. apply classifyMesh_keeps.
  - repeat split.
Qed.

Lemma traversal_box (g : Object3D OldMaterial) (v : Viewer) :
  setFromObject (fst (traverse classifyMesh g v)) = setFromObject g.
Proof. apply traverse_expandByObject. Qed.

Lemma onModelLoaded_root (g : Object3D OldMaterial) (v : Viewer) :
  getRingRoot (onModelLoaded g v) =
  Some (setPosition (fst (traverse classifyMesh g v))
          (Vector3.sub (position g) (Box3.getCenter (setFromObject g)))).
Proof.
  rewrite onModelLoaded_eq. cbv zeta. unfold getRingRoot. simpl.
  rewrite nth_error_app2 by lia. rewrite Nat.sub_diag. simpl.
  rewrite traversal_box, traverse_position. reflexivity.
Qed.

Lemma onModelLoaded_diamondMat (g : Object3D OldMaterial) (v : Viewer) :
  diamondMat (onModelLoaded g v) = diamondMat (snd (traverse classifyMesh g v)).
Proof. rewrite onModelLoaded_eq. reflexivity. Qed.

Lemma classifiedAs_setPosition (l : list (Object3D OldMaterial))
    (root : Object3D SceneMaterial) (p : Vector3.t) :
  Forall2 classifiedAs l (nodes root) ->
  Forall2 classifiedAs l (nodes (setPosition root p)).
Proof.
  destruct root; simpl. intros H. inversion H; subst. constructor; assumption.
Qed.

(** ** Mesh classification *)

(** C1.  When a model has loaded, its nodes are in the scene, one for one in
    traversal order, and every mesh among them refers to the shared gem
    material exactly when its lower-cased name contains "gem", "stone",
    "diamond", "center" or "mainstone" or the colour of its original material
    (of the first one, for an array) is bluish: blue > 0.35, red < 0.3 and
    green < 0.35.  Such a mesh has render order 2 and the gem material then
    has depth test on and depth write off; every other mesh refers to the
    shared metal material and has render order 0. *)
Theorem classification_by_name_or_colour (gltfScene : Object3D OldMaterial) (v : Viewer) :
  exists root : Object3D SceneMaterial,
    getRingRoot (onModelLoaded gltfScene v) = Some root /\
    Forall2 classifiedAs (nodes gltfScene) (nodes root) /\
    (forall obj, In obj (nodes gltfScene) -> isMesh obj = true -> gemCondition obj ->
                 gemDepthFlags (onModelLoaded gltfScene v)).
Proof.
  eexists. split; [apply onModelLoaded_root|]. split.
  - apply classifiedAs_setPosition.
    apply (traverse_nodes classifyMesh classifiedAs classifyMesh_classifies).
  - intros obj Hin Hmesh Hgem. unfold gemDepthFlags.
    rewrite onModelLoaded_diamondMat.
    apply (traverse_establishes classifyMesh gemDepthFlags classifyMesh_keeps_flags
             gltfScene obj Hin (classifyMesh_sets_flags obj Hmesh Hgem)).
Qed.

(** ** The greenish test *)



(** ** Boxes under translation *)

Lemma Rmin_shift (a b d : R) : Rmin (a + d) (b + d) = Rmin a b + d.
Proof. unfold Rmin. destruct (Rle_dec (a + d) (b + d)), (Rle_dec a b); lra. Qed.

Lemma Rmax_shift (a b d : R) : Rmax (a + d) (b + d) = Rmax a b + d.
Proof. unfold Rmax. destruct (Rle_dec (a + d) (b + d)), (Rle_dec a b); lra. Qed.

Lemma Vector3_min_shift (a b d : Vector3.t) :
  Vector3.min (Vector3.add a d) (Vector3.add b d) = Vector3.add (Vector3.min a b) d.
Proof. unfold Vector3.min, Vector3.add. simpl. rewrite !Rmin_shift. reflexivity. Qed.

Lemma Vector3_max_shift (a b d : Vector3.t) :
  Vector3.max (Vector3.add a d) (Vector3.add b d) = Vector3.add (Vector3.max a b) d.
Proof. unfold Vector3.max, Vector3.add. simpl. rewrite !Rmax_shift. reflexivity. Qed.

Lemma expandByPoint_translate (b : Box3.t) (p d : Vector3.t) :
  Box3.expandByPoint (Box3.translate b d) (Vector3.add p d)
  = Box3.translate (Box3.expandByPoint b p) d.
Proof.
  destruct b as [[mn mx]|]; simpl.
  - rewrite Vector3_min_shift, Vector3_max_shift. reflexivity.
  - reflexivity.
Qed.

Lemma union_translate (a b : Box3.t) (d : Vector3.t) :
  Box3.union (Box3.translate a d) (Box3.translate b d)
  = Box3.translate (Box3.union a b) d.
Proof.
  destruct a as [[amn amx]|], b as [[bmn bmx]|]; simpl; try reflexivity.
  rewrite Vector3_min_shift, Vector3_max_shift. reflexivity.
Qed.

Lemma fold_expandByPoint_translate (m : Matrix4) (d : Vector3.t) (ps : list Vector3.t) :
  forall acc,
    fold_left Box3.expandByPoint (map (fun p => Vector3.add (m p) d) ps)
      (Box3.translate acc d)
    = Box3.translate (fold_left Box3.expandByPoint (map m ps) acc) d.
Proof.
  induction ps as [|p ps IH]; intros acc; simpl.
  - reflexivity.
  - rewrite expandByPoint_translate. apply IH.
Qed.

Lemma applyMatrix4_translate (b : Box3.t) (m : Matrix4) (d : Vector3.t) :
  Box3.applyMatrix4 b (fun p => Vector3.add (m p) d)
  = Box3.translate (Box3.applyMatrix4 b m) d.
Proof.
  destruct b as [[mn mx]|]; [|reflexivity].
  unfold Box3.applyMatrix4, Box3.setFromPoints.
  apply (fold_expandByPoint_translate m d (Box3.corners mn mx) Box3.empty).
Qed.

Lemma applyMatrix4_ext (b : Box3.t) (m m' : Matrix4) :
  (forall p, m p = m' p) -> Box3.applyMatrix4 b m = Box3.applyMatrix4 b m'.
Proof.
  intros H. destruct b as [[mn mx]|]; [|reflexivity].
  unfold Box3.applyMatrix4. f_equal. apply map_ext. exact H.
Qed.

Lemma expandByObject_unfold {M : Type} (acc : Box3.t) (world : Matrix4) (o : Object3D M) :
  expandByObject acc world o =
  fold_left (fun a child => expandByObject a (fun p => world (localMatrix o p)) child)
    (children o)
    match geometry o with
    | Some g => Box3.union acc
                  (Box3.applyMatrix4 (boundingBox g) (fun p => world (localMatrix o p)))
    | None => acc
    end.
Proof. destruct o; reflexivity. Qed.

(** Two world matrices that agree on every point give the same box. *)
Lemma expandByObject_ext {M : Type} (o : Object3D M) :
  forall acc (w w' : Matrix4),
    (forall p, w p = w' p) -> expandByObject acc w o = expandByObject acc w' o.
Proof.
  induction o as [o IH] using Object3D_forall_ind. intros acc w w' Hw.
  rewrite !expandByObject_unfold.
  assert (Hlocal : forall p, w (localMatrix o p) = w' (localMatrix o p))
    by (intros p; apply Hw).
  replace (match geometry o with
           | Some g => Box3.union acc (Box3.applyMatrix4 (boundingBox g)
                                         (fun p => w (localMatrix o p)))
           | None => acc
           end)
    with (match geometry o with
          | Some g => Box3.union acc (Box3.applyMatrix4 (boundingBox g)
                                        (fun p => w' (localMatrix o p)))
          | None => acc
          end)
    by (destruct (geometry o); [f_equal; apply applyMatrix4_ext; auto | reflexivity]).
  generalize (match geometry o with
              | Some g => Box3.union acc (Box3.applyMatrix4 (boundingBox g)
                                            (fun p => w' (localMatrix o p)))
              | None => acc
              end).
  induction IH as [|c rest Hc _ IHrest]; intros acc1; simpl.
  - reflexivity.
  - rewrite (Hc acc1 _ _ Hlocal). apply IHrest.
Qed.

(** Moving the world by [d] moves the box by [d]. *)
Lemma expandByObject_translate {M : Type} (o : Object3D M) :
  forall acc (w : Matrix4) (d : Vector3.t),
    expandByObject (Box3.translate acc d) (fun p => Vector3.add (w p) d) o
    = Box3.translate (expandByObject acc w o) d.
Proof.
  induction o as [o IH] using Object3D_forall_ind. intros acc w d.
  rewrite !expandByObject_unfold.
  replace (match geometry o with
           | Some g => Box3.union (Box3.translate acc d)
                         (Box3.applyMatrix4 (boundingBox g)
                            (fun p => Vector3.add (w (localMatrix o p)) d))
           | None => Box3.translate acc d
           end)
    with (Box3.translate
            (match geometry o with
             | Some g => Box3.union acc (Box3.applyMatrix4 (boundingBox g)
                                           (fun p => w (localMatrix o p)))
             | None => acc
             end) d)
    by (destruct (geometry o);
        [rewrite applyMatrix4_translate, union_translate; reflexivity | reflexivity]).
  generalize (match geometry o with
              | Some g => Box3.union acc (Box3.applyMatrix4 (boundingBox g)
                                            (fun p => w (localMatrix o p)))
              | None => acc
              end).
  induction IH as [|c rest Hc _ IHrest]; intros acc1; simpl.
  - reflexivity.
  - rewrite (Hc acc1 (fun p => w (localMatrix o p)) d). apply IHrest.
Qed.

Lemma Vector3_add_sub_negate (a b c : Vector3.t) :
  Vector3.add b (Vector3.sub a c) = Vector3.add (Vector3.add b a) (Vector3.negate c).
Proof. unfold Vector3.add, Vector3.sub, Vector3.negate. simpl. f_equal; lra. Qed.

Lemma fold_expandByObject_ext {M : Type} (cs : list (Object3D M)) :
  forall acc (w w' : Matrix4),
    (forall p, w p = w' p) ->
    fold_left (fun a child => expandByObject a w child) cs acc
    = fold_left (fun a child => expandByObject a w' child) cs acc.
Proof.
  induction cs as [|c rest IH]; intros acc w w' Hw; simpl.
  - reflexivity.
  - rewrite (expandByObject_ext c acc w w' Hw). apply IH. exact Hw.
Qed.

(** Subtracting [c] from the position of an object that hangs under the scene
    moves its box by [-c]. *)
Lemma setFromObject_setPosition {M : Type} (o : Object3D M) (c : Vector3.t) :
  setFromObject (setPosition o (Vector3.sub (position o) c))
  = Box3.translate (setFromObject o) (Vector3.negate c).
Proof.
  unfold setFromObject.
  rewrite <- (expandByObject_translate o Box3.empty (fun p => p) (Vector3.negate c)).
  rewrite !expandByObject_unfold.
  change (geometry (setPosition o (Vector3.sub (position o) c))) with (geometry o).
  change (children (setPosition o (Vector3.sub (position o) c))) with (children o).
  assert (Hw : forall p,
             localMatrix (setPosition o (Vector3.sub (position o) c)) p
             = Vector3.add (localMatrix o p) (Vector3.negate c)).
  { intros p. unfold localMatrix. apply Vector3_add_sub_negate. }
  etransitivity.
  - apply fold_expandByObject_ext
      with (w' := fun p => Vector3.add (localMatrix o p) (Vector3.negate c)).
    exact Hw.
  - f_equal. destruct (geometry o) as [g|]; [|reflexivity].
    f_equal. apply applyMatrix4_ext. exact Hw.
Qed.

Lemma getCenter_recentred (b : Box3.t) :
  Box3.getCenter (Box3.translate b (Vector3.negate (Box3.getCenter b))) = Vector3.zero.
Proof.
  destruct b as [[[x0 y0 z0] [x1 y1 z1]]|]; [|reflexivity].
  unfold Box3.getCenter, Box3.translate, Vector3.multiplyScalar, Vector3.add,
    Vector3.negate, Vector3.zero. simpl. f_equal; lra.
Qed.

(** ** Centring the model *)

(** C5.  When a model has loaded, the position of its root is the position it
    came with minus the centre of its bounding box, and the bounding box of
    the root, computed again, has its centre at the origin (in exact
    arithmetic). *)
Theorem model_is_centred (gltfScene : Object3D OldMaterial) (v : Viewer) :
  exists root : Object3D SceneMaterial,
    getRingRoot (onModelLoaded gltfScene v) = Some root /\
    position root
    = Vector3.sub (position gltfScene) (Box3.getCenter (setFromObject gltfScene)) /\
    Box3.getCenter (setFromObject root) = Vector3.zero.
Proof.
  eexists. split; [apply onModelLoaded_root|]. split; [reflexivity|].
  rewrite <- (traverse_position classifyMesh gltfScene v).
  rewrite <- (traversal_box gltfScene v).
  rewrite setFromObject_setPosition. apply getCenter_recentred.
Qed.

(** ** The teardown as a state change *)

Lemma dispose_dispose (v : Viewer) (a b : list Resource) :
  dispose (dispose v a) b = dispose v (a ++ b).
Proof. unfold dispose. simpl. rewrite <- app_assoc. reflexivity. Qed.

Lemma dispose_nil (v : Viewer) : dispose v [] = v.
Proof. destruct v. unfold dispose. simpl. rewrite app_nil_r. reflexivity. Qed.

Lemma meshGeometryIds_unfold {M : Type} (o : Object3D M) :
  meshGeometryIds o =
  (if isMesh o
   then match geometry o with
        | Some g => [geometry_id g]
        | None => []
        end
   else [])
  ++ flat_map meshGeometryIds (children o).
Proof.
  unfold meshGeometryIds. destruct o as [im nm mt gm ro ps qt sc cs]. simpl.
  f_equal. induction cs as [|c rest IH]; simpl.
  - reflexivity.
  - rewrite flat_map_app, IH. reflexivity.
Qed.

Lemma traverseDo_unfold {M : Type} (cb : Object3D M -> Action) (o : Object3D M) :
  traverseDo cb o = (cb o ;; traverseDoEach cb (children o)).
Proof. destruct o; reflexivity. Qed.

Lemma traverseDo_disposeGeometry (o : Object3D SceneMaterial) :
  forall v, traverseDo disposeGeometry o v
            = Ok (dispose v (map Geometry (meshGeometryIds o))).
Proof.
  induction o as [o IH] using Object3D_forall_ind. intros v.
  rewrite traverseDo_unfold, meshGeometryIds_unfold, map_app, <- dispose_dispose.
  unfold andThen at 1.
  assert (Hown : disposeGeometry o v
                 = Ok (dispose v (map Geometry
                                    (if isMesh o
                                     then match geometry o with
                                          | Some g => [geometry_id g]
                                          | None => []
                                          end
                                     else [])))).
  { unfold disposeGeometry. destruct (isMesh o); simpl.
    - destruct (geometry o); simpl; [reflexivity|].
      unfold skip. rewrite dispose_nil. reflexivity.
    - unfold skip. rewrite dispose_nil. reflexivity. }
  rewrite Hown. clear Hown.
  generalize (dispose v (map Geometry
                           (if isMesh o
                            then match geometry o with
                                 | Some g => [geometry_id g]
                                 | None => []
                                 end
                            else []))).
  induction IH as [|c rest Hc _ IHrest]; intros v1; simpl.
  - unfold skip. rewrite dispose_nil. reflexivity.
  - unfold andThen. rewrite Hc, IHrest, dispose_dispose, map_app. reflexivity.
Qed.

Lemma sceneTraverse_disposeGeometry (cs : list (Object3D SceneMaterial)) :
  forall v, sceneTraverse disposeGeometry cs v
            = Ok (dispose v (map Geometry (flat_map meshGeometryIds cs))).
Proof.
  induction cs as [|c rest IH]; intros v; simpl.
  - unfold skip. rewrite dispose_nil. reflexivity.
  - unfold andThen. rewrite traverseDo_disposeGeometry, IH, dispose_dispose, map_app.
    reflexivity.
Qed.

(** The teardown never throws, and leaves [afterCleanup]. *)
Lemma cleanup_ok (v : Viewer) : cleanup v = Ok (afterCleanup v).
Proof.
  destruct v as [sc cam ren cp gm dm de rr ct rl fr dp co pa].
  viewer_fields.
  destruct de as [env|]; rewrite sceneTraverse_disposeGeometry; viewer_fields;
    (destruct cp as [p|]; [rewrite Nat.eqb_refl|]);
    rewrite <- ?app_assoc; reflexivity.
Qed.

Lemma step_next (e : Event) (v : Viewer) : step e v = Ok (next e v).
Proof.
  destruct e; simpl; try reflexivity.
  - destruct (resizeListener v); reflexivity.
  - apply cleanup_ok.
Qed.

Lemma run_runTo (es : list Event) : forall v, run es v = Ok (runTo es v).
Proof.
  induction es as [|e rest IH]; intros v; simpl.
  - reflexivity.
  - unfold andThen. rewrite step_next. apply IH.
Qed.

(** ** Teardown twice *)

(** C8.  Whatever has happened since the mount, the teardown returns without
    throwing, it leaves the canvas detached, and a second invocation returns
    without throwing as well: the HDR environment map is disposed only if it
    exists and the canvas is removed only while it has a parent. *)
Theorem teardown_twice_does_not_throw (es : list Event) (v0 : Viewer) :
  exists v v1 v2 : Viewer,
    run es v0 = Ok v /\
    cleanup v = Ok v1 /\
    canvasParent v1 = None /\
    cleanup v1 = Ok v2.
Proof.
  exists (runTo es v0), (afterCleanup (runTo es v0)),
    (afterCleanup (afterCleanup (runTo es v0))).
  repeat split; auto using run_runTo, cleanup_ok.
Qed.

(** ** What the success continuation leaves alone *)

Lemma onModelLoaded_camera (g : Object3D OldMaterial) (v : Viewer) :
  camera (onModelLoaded g v)
  = fitCamera (Sphere.radius (Box3.getBoundingSphere (setFromObject g))) (camera v).
Proof.
  rewrite onModelLoaded_eq. cbv zeta. simpl.
  destruct (traversal_keeps g v) as (_ & Hcam & _).
  rewrite traversal_box, Hcam. reflexivity.
Qed.

Lemma onModelLoaded_scene (g : Object3D OldMaterial) (v : Viewer) :
  scene (onModelLoaded g v)
  = scene v ++ [setPosition (fst (traverse classifyMesh g v))
                  (Vector3.sub (position g) (Box3.getCenter (setFromObject g)))].
Proof.
  rewrite onModelLoaded_eq. cbv zeta. simpl.
  destruct (traversal_keeps g v) as (Hscene & _).
  rewrite traversal_box, traverse_position, Hscene. reflexivity.
Qed.

Lemma onModelLoaded_diamondEnv (g : Object3D OldMaterial) (v : Viewer) :
  diamondEnv (onModelLoaded g v) = diamondEnv v.
Proof.
  rewrite onModelLoaded_eq. cbv zeta. simpl.
  destruct (traversal_keeps g v) as (_ & _ & Henv & _). exact Henv.
Qed.

Lemma onModelLoaded_envMap (g : Object3D OldMaterial) (v : Viewer) :
  envMap (standard (diamondMat (onModelLoaded g v))) = envMap (standard (diamondMat v)) /\
  envMapIntensity (standard (diamondMat (onModelLoaded g v)))
  = envMapIntensity (standard (diamondMat v)).
Proof.
  rewrite onModelLoaded_diamondMat.
  destruct (traversal_keeps g v) as (_ & _ & _ & Hmap & Hint). split; assumption.
Qed.

Lemma onModelLoaded_disposed (g : Object3D OldMaterial) (v : Viewer) :
  Forall disposedOnLoad (disposed v) ->
  Forall disposedOnLoad (disposed (onModelLoaded g v)).
Proof.
  intros H. rewrite onModelLoaded_eq. cbv zeta. simpl.
  apply (traverse_keeps classifyMesh (fun s => Forall disposedOnLoad (disposed s))).
  - intros o s. apply classifyMesh_disposed.
  - exact H.
Qed.

Lemma traverse_meshGeometryIds {A B S : Type} (cb : Object3D A -> S -> B * Z * S)
    (o : Object3D A) :
  forall s, meshGeometryIds (fst (traverse cb o s)) = meshGeometryIds o.
Proof.
  induction o as [o IH] using Object3D_forall_ind. intros s.
  rewrite traverse_unfold. destruct (cb o s) as [[m order] s1].
  assert (Hrest : forall s1,
             flat_map meshGeometryIds (fst (traverseEach cb (children o) s1))
             = flat_map meshGeometryIds (children o)).
  { clear s1. induction IH as [|c rest Hc _ IHrest]; intros s1.
    - reflexivity.
    - rewrite traverseEach_cons. specialize (Hc s1).
      destruct (traverse cb c s1) as [c' s']. specialize (IHrest s').
      destruct (traverseEach cb rest s') as [rest' s'']. simpl in *.
      rewrite Hc, IHrest. reflexivity. }
  specialize (Hrest s1). destruct (traverseEach cb (children o) s1) as [cs' s2].
  rewrite (meshGeometryIds_unfold o), meshGeometryIds_unfold. simpl in *.
  rewrite Hrest. reflexivity.
Qed.

Lemma meshGeometryIds_setPosition {M : Type} (o : Object3D M) (p : Vector3.t) :
  meshGeometryIds (setPosition o p) = meshGeometryIds o.
Proof. rewrite (meshGeometryIds_unfold o), meshGeometryIds_unfold. reflexivity. Qed.

Lemma onModelLoaded_geometries (g : Object3D OldMaterial) (v : Viewer) :
  flat_map meshGeometryIds (scene (onModelLoaded g v))
  = flat_map meshGeometryIds (scene v) ++ meshGeometryIds g.
Proof.
  rewrite onModelLoaded_scene, flat_map_app. simpl.
  rewrite meshGeometryIds_setPosition, traverse_meshGeometryIds, app_nil_r.
  reflexivity.
Qed.

(** ** The HDR fallback *)

Lemma next_keeps_fallback (e : Event) (v : Viewer) :
  (forall hdr, e <> HdrLoaded hdr) ->
  fallbackInstalled v -> fallbackInstalled (next e v).
Proof.
  intros Hnot H. unfold fallbackInstalled in *. destruct e; simpl.
  - exfalso. apply (Hnot hdr). reflexivity.
  - split; reflexivity.
  - destruct (onModelLoaded_envMap gltfScene v) as [-> ->]. exact H.
  - exact H.
  - destruct (resizeListener v); exact H.
  - exact H.
Qed.

Lemma runTo_keeps_fallback (es : list Event) :
  forall v, (forall hdr, ~ In (HdrLoaded hdr) es) ->
            fallbackInstalled v -> fallbackInstalled (runTo es v).
Proof.
  induction es as [|e rest IH]; intros v Hnot H; simpl.
  - exact H.
  - apply IH.
    + intros hdr Hin. apply (Hnot hdr). right. exact Hin.
    + apply next_keeps_fallback; [|exact H].
      intros hdr ->. apply (Hnot hdr). left. reflexivity.
Qed.

(** C2.  If the HDR load fails, so that its error continuation runs and its
    success continuation never does, then whatever else happens the gem
    material reflects the synthetic room map, the one the metal material
    uses, and its intensity is the fallback value 6, above the 5 it was
    constructed with. *)
Theorem hdr_failure_falls_back (mount : Container) (devicePixelRatio : R)
    (modelPath : string) (metal : MetalPreset) (es : list Event) (v : Viewer) :
  run es (mountEffect mount devicePixelRatio modelPath metal) = Ok v ->
  In HdrError es ->
  (forall hdr, ~ In (HdrLoaded hdr) es) ->
  envMap (standard (diamondMat v)) = Some RoomEnvMap /\
  envMap (standard (diamondMat v)) = envMap (goldMat_of metal) /\
  envMapIntensity (standard (diamondMat v)) = 6%float /\
  (envMapIntensity (standard diamondMat_initial)
   <? envMapIntensity (standard (diamondMat v)))%float = true.
Proof.
  intros Hrun Hin Hnot. rewrite run_runTo in Hrun. injection Hrun as <-.
  assert (H : fallbackInstalled
                (runTo es (mountEffect mount devicePixelRatio modelPath metal))).
  { generalize (mountEffect mount devicePixelRatio modelPath metal). intros v0.
    revert v0. induction es as [|e rest IH]; intros v0; [destruct Hin|].
    destruct Hin as [->|Hin]; simpl.
    - apply runTo_keeps_fallback.
      + intros hdr H. apply (Hnot hdr). right. exact H.
      + split; reflexivity.
    - apply IH; [exact Hin|]. intros hdr H. apply (Hnot hdr). right. exact H. }
  destruct H as [Hmap Hint]. rewrite Hmap, Hint. repeat split.
Qed.

(** The mount state and the run [HdrError] witness C2. *)
Lemma hdr_failure_falls_back_witness :
  envMap (standard (diamondMat (onHdrError sampleViewer))) = Some RoomEnvMap /\
  envMap (standard (diamondMat (onHdrError sampleViewer))) = envMap (goldMat_of yellowGold) /\
  envMapIntensity (standard (diamondMat (onHdrError sampleViewer))) = 6%float /\
  (envMapIntensity (standard diamondMat_initial)
   <? envMapIntensity (standard (diamondMat (onHdrError sampleViewer))))%float = true.
Proof.
  apply (hdr_failure_falls_back sampleMount 1 "/models/ring6.glb" yellowGold [HdrError]).
  - reflexivity.
  - left. reflexivity.
  - intros hdr [H|[]]. discriminate.
Defined.

(** ** Fitting the camera *)

Lemma fitCamera_fov (r : R) (c : PerspectiveCamera) : fov (fitCamera r c) = fov c.
Proof. reflexivity. Qed.







(** ** Resize *)

(** C9.  While the resize handler is registered, a resize event with the
    container at [w] by [h] CSS pixels, [h] positive, leaves the renderer's
    output size at exactly [w] by [h] and the camera's aspect at the quotient
    [w / h], which multiplied by [h] gives back [w]; the projection has been
    recomputed with the new aspect. *)
Theorem resize_matches_container (v : Viewer) (w h : Z) :
  resizeListener v = true ->
  (0 < h)%Z ->
  exists v' : Viewer,
    step (WindowResize w h) v = Ok v' /\
    width (renderer v') = w /\
    height (renderer v') = h /\
    aspect (camera v') = IZR w / IZR h /\
    aspect (camera v') * IZR h = IZR w /\
    projectionMatrix (camera v')
    = mkProjection (fov (camera v)) (IZR w / IZR h) (near (camera v)) (far (camera v)).
Proof.
  intros Hreg Hh. exists (onResize w h v). simpl. rewrite Hreg.
  repeat split.
  apply IZR_lt in Hh. field. lra.
Qed.

Lemma resize_matches_container_witness :
  exists v' : Viewer,
    step (WindowResize 1024 768) sampleViewer = Ok v' /\
    width (renderer v') = 1024%Z /\
    height (renderer v') = 768%Z /\
    aspect (camera v') = IZR 1024 / IZR 768 /\
    aspect (camera v') * IZR 768 = IZR 1024 /\
    projectionMatrix (camera v')
    = mkProjection (fov (camera sampleViewer)) (IZR 1024 / IZR 768)
        (near (camera sampleViewer)) (far (camera sampleViewer)).
Proof.
  apply (resize_matches_container sampleViewer 1024 768).
  - reflexivity.
  - lia.
Defined.

(** ** The metal material *)

Lemma lookup_METALS (key : string) (metal : MetalPreset) :
  lookup key METALS = Some metal ->
  metal = mkMetalPreset "Yellow Gold" 0xe3bb5e 0.1 2.2 \/
  metal = mkMetalPreset "White Gold" 0xc2c2c3 0.1 2.0 \/
  metal = mkMetalPreset "Rose Gold" 0xd9a483 0.1 2.1.
Proof.
  unfold METALS. cbn [lookup].
  destruct (String.eqb "yellow" key); [intros [= <-]; auto|].
  destruct (String.eqb "white" key); [intros [= <-]; auto|].
  destruct (String.eqb "rose" key); [intros [= <-]; auto|].
  discriminate.
Qed.

(** C10.  Whichever preset is chosen, the metal material is built from it
    with the colour as it is and metalness 1, but with the roughness raised
    by 0.05 and the environment intensity scaled by 0.75, so neither of the
    two equals the preset's value. *)
Theorem metal_material_is_dulled (key : string) (metal : MetalPreset)
    (mount : Container) (devicePixelRatio : R) (modelPath : string) :
  lookup key METALS = Some metal ->
  let m := goldMat (mountEffect mount devicePixelRatio modelPath metal) in
  color m = preset_color metal /\
  metalness m = 1%float /\
  roughness m = (preset_roughness metal + 0.05)%float /\
  envMapIntensity m = (envIntensity metal * 0.75)%float /\
  roughness m <> preset_roughness metal /\
  envMapIntensity m <> envIntensity metal.
Proof.
  intros Hkey m. subst m. simpl.
  split; [reflexivity|]. split; [reflexivity|].
  split; [reflexivity|]. split; [reflexivity|].
  destruct (lookup_METALS key metal Hkey) as [-> | [-> | ->]];
    cbn [preset_roughness envIntensity]; split; intros H.
  - apply (f_equal (fun x => PrimFloat.eqb x 0.1)) in H. vm_compute in H. discriminate.
  - apply (f_equal (fun x => PrimFloat.eqb x 2.2)) in H. vm_compute in H. discriminate.
  - apply (f_equal (fun x => PrimFloat.eqb x 0.1)) in H. vm_compute in H. discriminate.
  - apply (f_equal (fun x => PrimFloat.eqb x 2.0)) in H. vm_compute in H. discriminate.
  - apply (f_equal (fun x => PrimFloat.eqb x 0.1)) in H. vm_compute in H. discriminate.
  - apply (f_equal (fun x => PrimFloat.eqb x 2.1)) in H. vm_compute in H. discriminate.
Qed.

Lemma metal_material_is_dulled_witness :
  let m := goldMat sampleViewer in
  color m = preset_color yellowGold /\
  metalness m = 1%float /\
  roughness m = (preset_roughness yellowGold + 0.05)%float /\
  envMapIntensity m = (envIntensity yellowGold * 0.75)%float /\
  roughness m <> preset_roughness yellowGold /\
  envMapIntensity m <> envIntensity yellowGold.
Proof.
  apply (metal_material_is_dulled "yellow" yellowGold sampleMount 1 "/models/ring6.glb").
  reflexivity.
Defined.

(** The values the three presets give the material. *)
Example yellow_gold_material :
  roughness (goldMat_of yellowGold) = 0.15000000000000002%float /\
  envMapIntensity (goldMat_of yellowGold) = 1.6500000000000001%float.
Proof. vm_compute. split; reflexivity. Qed.

(** ** The random selection *)












(** The sample draw picks the sixth model and white gold, and a later render
    that draws other numbers still sees them. *)
Example sample_selection :
  renders [(1 # 2, 1 # 3); (9 # 10, 0%Q)] freshInstance
  = [ mkSelection (Some "/models/ring6.glb"%string) (Some "white"%string)
        (Some (mkMetalPreset "White Gold" 0xc2c2c3 0.1 2.0));
      mkSelection (Some "/models/ring6.glb"%string) (Some "white"%string)
        (Some (mkMetalPreset "White Gold" 0xc2c2c3 0.1 2.0)) ].
Proof. vm_compute. reflexivity. Qed.

(** ** Counting disposals *)

Lemma count_Geometry (ids : list nat) (id : nat) :
  count_occ Resource_eq_dec (map Geometry ids) (Geometry id)
  = count_occ Nat.eq_dec ids id.
Proof.
  induction ids as [|a ids IH]; simpl; [reflexivity|].
  destruct (Resource_eq_dec (Geometry a) (Geometry id)) as [H|H],
           (Nat.eq_dec a id) as [H'|H'].
  - rewrite IH. reflexivity.
  - congruence.
  - congruence.
  - exact IH.
Qed.

Lemma count_not_Geometry (ids : list nat) (r : Resource) :
  (forall id, r <> Geometry id) ->
  count_occ Resource_eq_dec (map Geometry ids) r = 0%nat.
Proof.
  intros H. apply count_occ_not_In. intros Hin. apply in_map_iff in Hin.
  destruct Hin as (id & <- & _). apply (H id). reflexivity.
Qed.

Lemma count_not_onLoad (l : list Resource) (r : Resource) :
  Forall disposedOnLoad l -> ~ disposedOnLoad r ->
  count_occ Resource_eq_dec l r = 0%nat.
Proof.
  intros Hall Hr. apply count_occ_not_In. intros Hin.
  apply Hr. revert Hin. apply Forall_forall. exact Hall.
Qed.

Lemma disposals_afterCleanup (r : Resource) (v : Viewer) :
  disposals r (afterCleanup v) =
  (disposals r v
   + (count_occ Resource_eq_dec
        [Controls; DracoLoader; GoldMaterial; DiamondMaterial; Tex RoomEnvMap] r
      + (count_occ Resource_eq_dec
           match diamondEnv v with
           | Some t => [Tex t]
           | None => []
           end r
         + (count_occ Resource_eq_dec [PMREMGenerator] r
            + (count_occ Resource_eq_dec
                 (map Geometry (flat_map meshGeometryIds (scene v))) r
               + count_occ Resource_eq_dec [Renderer] r)))))%nat.
Proof.
  unfold disposals, afterCleanup. cbn [disposed set_canvasParent dispose].
  rewrite !count_occ_app. reflexivity.
Qed.

(** ** What a run without teardown leaves *)

Lemma next_disposed_onLoad (e : Event) (v : Viewer) :
  e <> Cleanup ->
  Forall disposedOnLoad (disposed v) -> Forall disposedOnLoad (disposed (next e v)).
Proof.
  intros He H. destruct e; simpl.
  - apply Forall_app. split; [exact H | repeat constructor].
  - exact H.
  - apply onModelLoaded_disposed. exact H.
  - exact H.
  - destruct (resizeListener v); exact H.
  - contradiction.
Qed.

Lemma runTo_disposed_onLoad (es : list Event) :
  forall v, ~ In Cleanup es ->
            Forall disposedOnLoad (disposed v) ->
            Forall disposedOnLoad (disposed (runTo es v)).
Proof.
  induction es as [|e rest IH]; intros v Hno H; simpl.
  - exact H.
  - apply IH.
    + intros Hin. apply Hno. right. exact Hin.
    + apply next_disposed_onLoad; [|exact H].
      intros ->. apply Hno. left. reflexivity.
Qed.

Lemma next_geometries (e : Event) (v : Viewer) :
  flat_map meshGeometryIds (scene (next e v))
  = flat_map meshGeometryIds (scene v) ++ loadedGeometryIds [e].
Proof.
  destruct e; simpl; rewrite ?app_nil_r; try reflexivity.
  - apply onModelLoaded_geometries.
  - destruct (resizeListener v); reflexivity.
Qed.

Lemma runTo_geometries (es : list Event) :
  forall v, flat_map meshGeometryIds (scene (runTo es v))
            = flat_map meshGeometryIds (scene v) ++ loadedGeometryIds es.
Proof.
  induction es as [|e rest IH]; intros v; simpl.
  - rewrite app_nil_r. reflexivity.
  - rewrite IH, next_geometries. simpl. rewrite app_nil_r, <- app_assoc.
    reflexivity.
Qed.

Lemma next_diamondEnv (e : Event) (v : Viewer) :
  diamondEnv (next e v)
  = fold_left (fun _ hdr => Some (HdrEnvMap hdr)) (hdrLoads [e]) (diamondEnv v).
Proof.
  destruct e; simpl; try reflexivity.
  - apply onModelLoaded_diamondEnv.
  - destruct (resizeListener v); reflexivity.
Qed.

Lemma runTo_diamondEnv (es : list Event) :
  forall v, diamondEnv (runTo es v)
            = fold_left (fun _ hdr => Some (HdrEnvMap hdr)) (hdrLoads es) (diamondEnv v).
Proof.
  induction es as [|e rest IH]; intros v; simpl.
  - reflexivity.
  - rewrite IH, next_diamondEnv, fold_left_app. simpl. rewrite app_nil_r.
    reflexivity.
Qed.

(** The geometry disposals of a teardown after a run from the mount: one per
    loaded mesh. *)
Lemma geometry_disposals (mount : Container) (devicePixelRatio : R)
    (modelPath : string) (metal : MetalPreset) (es : list Event) (id : nat) :
  ~ In Cleanup es ->
  disposals (Geometry id)
    (afterCleanup (runTo es (mountEffect mount devicePixelRatio modelPath metal)))
  = count_occ Nat.eq_dec (loadedGeometryIds es) id.
Proof.
  intros Hno. rewrite disposals_afterCleanup.
  unfold disposals at 1.
  rewrite (count_not_onLoad _ (Geometry id));
    [| apply runTo_disposed_onLoad; [exact Hno | constructor] | intros H; exact H].
  rewrite count_Geometry, runTo_geometries.
  destruct (diamondEnv (runTo es (mountEffect mount devicePixelRatio modelPath metal)));
    simpl; lia.
Qed.

(** ** Disposal at teardown *)

(** A model with two prongs that share a geometry: the teardown calls
    [dispose()] on that geometry twice, once per mesh, so "exactly once" fails
    for it. *)
Lemma shared_geometry_disposed_twice :
  exists v v' : Viewer,
    run [ModelLoaded twinProngs] sampleViewer = Ok v /\
    cleanup v = Ok v' /\
    disposals (Geometry 7) v' = 2%nat.
Proof.
  exists (runTo [ModelLoaded twinProngs] sampleViewer),
    (afterCleanup (runTo [ModelLoaded twinProngs] sampleViewer)).
  split; [apply run_runTo|]. split; [apply cleanup_ok|].
  unfold sampleViewer. rewrite geometry_disposals.
  - reflexivity.
  - intros [H|[]]. discriminate.
Qed.

(** C7, amended.  After a run from the mount in which the HDR load has
    resolved at most once, the teardown returns and by then [dispose()] has
    been called exactly once on the controls, the DRACO loader, both shared
    materials, the synthetic environment map, the PMREM generator and the
    renderer, and exactly once on the HDR environment map if one was created.
    On a geometry it has been called once for each loaded mesh that uses it:
    exactly once on every loaded mesh geometry when no two meshes share
    one. *)
Theorem teardown_disposals (mount : Container) (devicePixelRatio : R)
    (modelPath : string) (metal : MetalPreset) (es : list Event) :
  ~ In Cleanup es ->
  (List.length (hdrLoads es) <= 1)%nat ->
  exists v v' : Viewer,
    run es (mountEffect mount devicePixelRatio modelPath metal) = Ok v /\
    cleanup v = Ok v' /\
    (forall r, In r mountResources -> disposals r v' = 1%nat) /\
    (forall hdr, In hdr (hdrLoads es) -> disposals (Tex (HdrEnvMap hdr)) v' = 1%nat) /\
    (forall id, disposals (Geometry id) v'
                = count_occ Nat.eq_dec (loadedGeometryIds es) id) /\
    (NoDup (loadedGeometryIds es) ->
     forall id, In id (loadedGeometryIds es) -> disposals (Geometry id) v' = 1%nat).
Proof.
  intros Hno Hhdr.
  set (v0 := mountEffect mount devicePixelRatio modelPath metal).
  exists (runTo es v0), (afterCleanup (runTo es v0)).
  split; [apply run_runTo|]. split; [apply cleanup_ok|].
  assert (Hload : Forall disposedOnLoad (disposed (runTo es v0)))
    by (apply runTo_disposed_onLoad; [exact Hno | constructor]).
  assert (Henv : diamondEnv (runTo es v0)
                 = match hdrLoads es with
                   | [] => None
                   | hdr :: _ => Some (HdrEnvMap hdr)
                   end).
  { rewrite runTo_diamondEnv. destruct (hdrLoads es) as [|h [|h' rest]]; simpl in *.
    - reflexivity.
    - reflexivity.
    - lia. }
  split; [|split; [|split]].
  - intros r Hr. rewrite disposals_afterCleanup. unfold disposals at 1.
    rewrite (count_not_Geometry _ r)
      by (intros id ->; simpl in Hr; intuition discriminate).
    rewrite (count_not_onLoad _ r Hload)
      by (intros H; simpl in Hr; intuition (subst; exact H)).
    rewrite Henv.
    simpl in Hr.
    destruct Hr as [<-|[<-|[<-|[<-|[<-|[<-|[<-|[]]]]]]]];
      destruct (hdrLoads es); reflexivity.
  - intros hdr Hin. rewrite disposals_afterCleanup. unfold disposals at 1.
    rewrite (count_not_Geometry _ (Tex (HdrEnvMap hdr))) by discriminate.
    rewrite (count_not_onLoad _ (Tex (HdrEnvMap hdr)) Hload) by (intros H; exact H).
    rewrite Henv.
    destruct (hdrLoads es) as [|h [|h' rest]]; simpl in Hin, Hhdr.
    + destruct Hin.
    + destruct Hin as [->|[]]. count_concrete. reflexivity.
    + lia.
  - intros id. apply geometry_disposals. exact Hno.
  - intros Hnd id Hin. unfold v0. rewrite geometry_disposals by exact Hno.
    apply (proj1 (NoDup_count_occ' Nat.eq_dec (loadedGeometryIds es)) Hnd id Hin).
Qed.

(** A run in which the HDR image and a ring of one stone load, then the
    teardown: the assumptions of C7 hold of it. *)
Lemma teardown_disposals_witness :
  exists v v' : Viewer,
    run [HdrLoaded 1; ModelLoaded (groupNode [meshNode "centerStone" NoMaterial 3 []])]
      sampleViewer = Ok v /\
    cleanup v = Ok v' /\
    (forall r, In r mountResources -> disposals r v' = 1%nat) /\
    (forall hdr,
        In hdr (hdrLoads [HdrLoaded 1;
                          ModelLoaded (groupNode [meshNode "centerStone" NoMaterial 3 []])]) ->
        disposals (Tex (HdrEnvMap hdr)) v' = 1%nat) /\
    (forall id,
        disposals (Geometry id) v'
        = count_occ Nat.eq_dec
            (loadedGeometryIds
               [HdrLoaded 1;
                ModelLoaded (groupNode [meshNode "centerStone" NoMaterial 3 []])]) id) /\
    (NoDup (loadedGeometryIds
              [HdrLoaded 1;
               ModelLoaded (groupNode [meshNode "centerStone" NoMaterial 3 []])]) ->
     forall id,
       In id (loadedGeometryIds
                [HdrLoaded 1;
                 ModelLoaded (groupNode [meshNode "centerStone" NoMaterial 3 []])]) ->
       disposals (Geometry id) v' = 1%nat).
Proof.
  apply (teardown_disposals sampleMount 1 "/models/ring6.glb" yellowGold
           [HdrLoaded 1; ModelLoaded (groupNode [meshNode "centerStone" NoMaterial 3 []])]).
  - simpl. intros [H|[H|[]]]; discriminate.
  - simpl. lia.
Defined.

(** ** The statements on sample inputs *)

(** A mesh named "centerStone" is a gem whatever its colour; here it is
    red. *)
Example centerStone_is_gem :
  fst (classifyMesh
         (meshNode "centerStone" (plainMaterial 1 (Some (Color.mk 0.9 0.1 0.1))) 1 [])
         sampleViewer)
  = (DiamondMat, 2%Z).
Proof. vm_compute. reflexivity. Qed.

(** A mesh with a plain name and a blue material is a gem. *)
Example blue_part_is_gem :
  fst (classifyMesh
         (meshNode "Object_4" (plainMaterial 1 (Some (Color.mk 0.1 0.2 0.8))) 1 [])
         sampleViewer)
  = (DiamondMat, 2%Z).
Proof. vm_compute. reflexivity. Qed.

(** A mesh with neither is metal: the green band, and a band that is blue
    only up to the threshold. *)
Example band_is_metal :
  fst (classifyMesh greenBand sampleViewer) = (GoldMat, 0%Z) /\
  fst (classifyMesh
         (meshNode "band" (plainMaterial 1 (Some (Color.mk 0.1 0.2 0.35))) 1 [])
         sampleViewer)
  = (GoldMat, 0%Z).
Proof. vm_compute. split; reflexivity. Qed.

(** While the HDR load is pending, neither continuation having run, the gem
    material has no environment map and the intensity it was built with. *)
Lemma hdr_pending_keeps_initial (es : list Event) :
  forall v,
    ~ In HdrError es -> (forall hdr, ~ In (HdrLoaded hdr) es) ->
    envMap (standard (diamondMat (runTo es v))) = envMap (standard (diamondMat v)) /\
    envMapIntensity (standard (diamondMat (runTo es v)))
    = envMapIntensity (standard (diamondMat v)).
Proof.
  induction es as [|e rest IH]; intros v Herr Hload; simpl.
  - split; reflexivity.
  - assert (Hrest : ~ In HdrError rest) by (intros H; apply Herr; right; exact H).
    assert (Hrest' : forall hdr, ~ In (HdrLoaded hdr) rest)
      by (intros hdr H; apply (Hload hdr); right; exact H).
    destruct (IH (next e v) Hrest Hrest') as [-> ->].
    destruct e; simpl.
    + exfalso. apply (Hload hdr). left. reflexivity.
    + exfalso. apply Herr. left. reflexivity.
    + apply onModelLoaded_envMap.
    + split; reflexivity.
    + destruct (resizeListener v); split; reflexivity.
    + split; reflexivity.
Qed.

(** Without their guards the two guarded statements of the teardown would
    throw on a second invocation: the canvas has no parent by then, and
    without an HDR map there is no object to call [dispose] on. *)
Lemma removeChild_unguarded_throws (v : Viewer) (parent : nat) :
  removeChild parent (afterCleanup v) = Throw NotFoundError.
Proof. reflexivity. Qed.

Lemma callMethod_on_null_throws (method : Texture -> Action) (v : Viewer) :
  callMethod None method v = Throw TypeError.
Proof. reflexivity. Qed.

(** * Further properties *)

(** ** Drawing from an array *)




(** ** The name test *)

Lemma string_app_assoc (a b c : string) :
  ((a ++ b) ++ c)%string = (a ++ b ++ c)%string.
Proof. induction a as [|ch a IH]; simpl; [reflexivity | rewrite IH; reflexivity]. Qed.

Lemma mainstone_contains_stone (s : string) :
  contains s "mainstone" -> contains s "stone".
Proof.
  intros (before & after & ->). exists (before ++ "main")%string, after.
  rewrite string_app_assoc. reflexivity.
Qed.

(** X2.  The fifth substring test never decides: a name that contains
    "mainstone" contains "stone", so the name suggests a gem exactly when it
    contains "gem", "stone", "diamond" or "center". *)
Theorem mainstone_test_is_redundant (name : string) :
  nameSuggestsGem name =
  JsString.includes name "gem" || JsString.includes name "stone" ||
  JsString.includes name "diamond" || JsString.includes name "center".
Proof.
  unfold nameSuggestsGem.
  destruct (JsString.includes name "mainstone") eqn:Hmain.
  - apply includes_iff, mainstone_contains_stone, includes_iff in Hmain.
    rewrite Hmain.
    destruct (JsString.includes name "gem"), (JsString.includes name "diamond"),
             (JsString.includes name "center"); reflexivity.
  - rewrite orb_false_r. reflexivity.
Qed.

(** ** Meshes without a usable colour *)

(** X3.  A mesh that has no material, an empty array of materials, a
    material without a colour, or a colour with a channel that is not a
    number is never bluish: it is classified by its name alone. *)
Theorem colourless_mesh_classified_by_name (obj : Object3D OldMaterial) :
  (oldColor (material obj) = None \/
   exists c, oldColor (material obj) = Some c /\ hasNaN c) ->
  useGem obj = nameSuggestsGem (JsString.toLowerCase (name obj)).
Proof.
  intros H. unfold useGem. rewrite orDefault_empty.
  assert (Hblue : isBluish (oldColor (material obj)) = false).
  { destruct H as [-> | (c & -> & Hnan)]; [reflexivity|].
    unfold isBluish. destruct Hnan as [Hr | [Hg | Hb]].
    - rewrite Hr. change (PrimFloat.nan <? 0.3)%float with false.
      rewrite andb_false_r. reflexivity.
    - rewrite Hg. change (PrimFloat.nan <? 0.35)%float with false.
      apply andb_false_r.
    - rewrite Hb. change (0.35 <? PrimFloat.nan)%float with false. reflexivity. }
  rewrite Hblue. apply orb_false_r.
Qed.

Lemma colourless_mesh_classified_by_name_witness :
  useGem (meshNode "Prong" (MaterialArray []) 1 [])
  = nameSuggestsGem (JsString.toLowerCase (name (meshNode "Prong" (MaterialArray []) 1 []))).
Proof.
  apply (colourless_mesh_classified_by_name (meshNode "Prong" (MaterialArray []) 1 [])).
  left. reflexivity.
Defined.

(** ** What the traversal does to the state and to the nodes *)

Section TraverseLog.

Context {A B S X : Type} (cb : Object3D A -> S -> B * Z * S).
Context (log : S -> list X) (entry : Object3D A -> list X).
Hypothesis cb_logs : forall o s, log (snd (cb o s)) = log s ++ entry o.

(** A callback that appends to a log at each node leaves the entries of the
    nodes in visiting order. *)
Lemma traverse_log (o : Object3D A) :
  forall s, log (snd (traverse cb o s)) = log s ++ flat_map entry (nodes o).
Proof.
  induction o as [o IH] using Object3D_forall_ind. intros s.
  rewrite traverse_unfold.
  pose proof (cb_logs o s) as Hhead.
  destruct (cb o s) as [[m order] s1]. simpl in Hhead.
  assert (Hrest : forall s1,
             log (snd (traverseEach cb (children o) s1))
             = log s1 ++ flat_map entry (flat_map nodes (children o))).
  { clear Hhead s1. induction IH as [|c rest Hc _ IHrest]; intros s1.
    - simpl. rewrite app_nil_r. reflexivity.
    - rewrite traverseEach_cons. specialize (Hc s1).
      destruct (traverse cb c s1) as [c' s']. specialize (IHrest s').
      destruct (traverseEach cb rest s') as [rest' s'']. simpl in *.
      rewrite IHrest, Hc, flat_map_app, app_assoc. reflexivity. }
  specialize (Hrest s1). destruct (traverseEach cb (children o) s1) as [cs' s2].
  simpl in Hrest. destruct o; simpl in *.
  rewrite Hrest, Hhead, app_assoc. reflexivity.
Qed.

End TraverseLog.

Lemma classifyMesh_log (o : Object3D OldMaterial) (s : Viewer) :
  disposed (snd (classifyMesh o s))
  = disposed s ++ (if isMesh o then disposeMaterial (material o) else []).
Proof.
  destruct (isMesh o) eqn:Hmesh.
  - rewrite (classifyMesh_mesh o s Hmesh). destruct (useGem o); reflexivity.
  - rewrite (classifyMesh_other o s Hmesh). simpl. rewrite app_nil_r. reflexivity.
Qed.

Lemma onModelLoaded_log (g : Object3D OldMaterial) (v : Viewer) :
  disposed (onModelLoaded g v) = disposed v ++ replacedMaterials g.
Proof.
  rewrite onModelLoaded_eq. cbv zeta.
  change (disposed (snd (traverse classifyMesh g v)) = disposed v ++ replacedMaterials g).
  apply (traverse_log classifyMesh disposed
           (fun n => if isMesh n then disposeMaterial (material n) else [])
           classifyMesh_log).
Qed.

(** The traversal writes the gem material and the log and nothing else. *)
Lemma traversal_frame (g : Object3D OldMaterial) (v : Viewer) :
  exists m l, snd (traverse classifyMesh g v) = dispose (set_diamondMat v m) l.
Proof.
  apply (traverse_keeps classifyMesh
           (fun s => exists m l, s = dispose (set_diamondMat v m) l)).
  - intros o s (m & l & ->). destruct (isMesh o) eqn:Hmesh.
    + rewrite (classifyMesh_mesh o _ Hmesh). destruct (useGem o); simpl.
      * exists (on_standard (fun m0 => set_depthWrite (set_depthTest m0 true) false) m),
          (l ++ disposeMaterial (material o)).
        unfold dispose, set_diamondMat. simpl. rewrite app_assoc. reflexivity.
      * exists m, (l ++ disposeMaterial (material o)).
        unfold dispose, set_diamondMat. simpl. rewrite app_assoc. reflexivity.
    + rewrite (classifyMesh_other o _ Hmesh). exists m, l. reflexivity.
  - exists (diamondMat v), []. destruct v. unfold dispose, set_diamondMat. simpl.
    rewrite app_nil_r. reflexivity.
Qed.

(** The fields the success continuation leaves as they are. *)
Lemma onModelLoaded_frame (g : Object3D OldMaterial) (v : Viewer) :
  renderer (onModelLoaded g v) = renderer v /\
  goldMat (onModelLoaded g v) = goldMat v /\
  path (onModelLoaded g v) = path v /\
  console (onModelLoaded g v) = console v /\
  resizeListener (onModelLoaded g v) = resizeListener v /\
  canvasParent (onModelLoaded g v) = canvasParent v.
Proof.
  rewrite onModelLoaded_eq. cbv zeta.
  destruct (traversal_frame g v) as (m & l & ->).
  repeat split.
Qed.

(** ** Nodes after a load *)

Lemma classifyMesh_keeps_node (o : Object3D OldMaterial) (s : Viewer)
    (cs' : list (Object3D SceneMaterial)) :
  (fun a b => keptNode a b /\ position b = position a) o
    (mkObject3D (isMesh o) (name o) (fst (fst (classifyMesh o s))) (geometry o)
       (snd (fst (classifyMesh o s))) (position o) (quaternion o) (scale o) cs').
Proof.
  split; [|reflexivity]. unfold keptNode. simpl.
  repeat (split; [reflexivity|]).
  intros Hmesh. rewrite (classifyMesh_other o s Hmesh). split; reflexivity.
Qed.

(** X4.  Loading a model changes no node's kind, name, geometry, rotation or
    scale, and the nodes that are not meshes (groups, lines, points) keep
    their material and render order; the only position that changes is the
    root's: every node below the root stays where it was relative to its
    parent. *)
Theorem load_keeps_nodes (gltfScene : Object3D OldMaterial) (v : Viewer) :
  exists root : Object3D SceneMaterial,
    getRingRoot (onModelLoaded gltfScene v) = Some root /\
    Forall2 keptNode (nodes gltfScene) (nodes root) /\
    Forall2 (fun obj obj' => position obj' = position obj)
      (flat_map nodes (children gltfScene)) (flat_map nodes (children root)).
Proof.
  eexists. split; [apply onModelLoaded_root|].
  pose proof (traverse_nodes classifyMesh
                (fun a b => keptNode a b /\ position b = position a)
                classifyMesh_keeps_node gltfScene v) as H.
  destruct (fst (traverse classifyMesh gltfScene v)) as [im nm mt gm ro ps qt sc cs].
  destruct gltfScene as [im0 nm0 mt0 gm0 ro0 ps0 qt0 sc0 cs0].
  simpl in *. inversion H as [|a b la lb [Hhead _] Htail]; subst.
  split.
  - constructor; [exact Hhead|].
    clear Hhead H. induction Htail as [|a b la lb [Hk _] _ IH]; constructor; assumption.
  - clear Hhead H. induction Htail as [|a b la lb [_ Hp] _ IH]; constructor; assumption.
Qed.

(** ** The log of disposals along a run *)

Lemma next_log (e : Event) (v : Viewer) :
  e <> Cleanup -> disposed (next e v) = disposed v ++ loadLog e.
Proof.
  intros He. destruct e; simpl; rewrite ?app_nil_r; try reflexivity.
  - apply onModelLoaded_log.
  - destruct (resizeListener v); reflexivity.
  - contradiction.
Qed.

Lemma runTo_log (es : list Event) :
  forall v, ~ In Cleanup es -> disposed (runTo es v) = disposed v ++ flat_map loadLog es.
Proof.
  induction es as [|e rest IH]; intros v Hno; simpl.
  - rewrite app_nil_r. reflexivity.
  - rewrite IH by (intros H; apply Hno; right; exact H).
    rewrite next_log by (intros ->; apply Hno; left; reflexivity).
    rewrite app_assoc. reflexivity.
Qed.

(** X5.  Until the teardown runs, [dispose()] has been called on exactly
    this, in this order: for each HDR load that succeeded, the image it
    delivered; for each model that loaded, mesh by mesh in traversal order,
    the textures and then the material of what the mesh came with (of each
    element, for an array).  Nothing is disposed for a node that is no mesh,
    and a material that several meshes share is disposed once per mesh. *)
Theorem disposals_before_teardown (mount : Container) (devicePixelRatio : R)
    (modelPath : string) (metal : MetalPreset) (es : list Event) :
  ~ In Cleanup es ->
  exists v : Viewer,
    run es (mountEffect mount devicePixelRatio modelPath metal) = Ok v /\
    disposed v = flat_map loadLog es.
Proof.
  intros Hno. eexists. split; [apply run_runTo|].
  rewrite runTo_log by exact Hno. reflexivity.
Qed.

Lemma disposals_before_teardown_witness :
  exists v : Viewer,
    run [HdrLoaded 1; ModelLoaded twinProngs] sampleViewer = Ok v /\
    disposed v = flat_map loadLog [HdrLoaded 1; ModelLoaded twinProngs].
Proof.
  apply (disposals_before_teardown sampleMount 1 "/models/ring6.glb" yellowGold
           [HdrLoaded 1; ModelLoaded twinProngs]).
  intros [H|[H|[]]]; discriminate.
Defined.

(** The log of the sample run: the image, then the material the two prongs
    share, once for each prong. *)
Example sample_load_log :
  flat_map loadLog [HdrLoaded 1; ModelLoaded twinProngs]
  = [Tex (HdrImage 1); ModelMaterial 1; ModelMaterial 1].
Proof. reflexivity. Qed.

Lemma loadLog_onLoad (e : Event) : Forall disposedOnLoad (loadLog e).
Proof.
  destruct e; simpl; try constructor; try constructor.
  unfold replacedMaterials. induction (nodes gltfScene) as [|n ns IH]; simpl.
  - constructor.
  - apply Forall_app. split; [|exact IH].
    destruct (isMesh n); [apply disposeMaterial_onLoad | constructor].
Qed.

(** A handler other than the teardown disposes nothing that the teardown is
    in charge of. *)
Lemma next_disposals (e : Event) (v : Viewer) (r : Resource) :
  e <> Cleanup -> ~ disposedOnLoad r -> disposals r (next e v) = disposals r v.
Proof.
  intros He Hr. unfold disposals. rewrite (next_log e v He), count_occ_app.
  rewrite (count_not_onLoad (loadLog e) r (loadLog_onLoad e) Hr). lia.
Qed.

Lemma runTo_disposals (es : list Event) (r : Resource) :
  forall v, ~ In Cleanup es -> ~ disposedOnLoad r ->
            disposals r (runTo es v) = disposals r v.
Proof.
  induction es as [|e rest IH]; intros v Hno Hr; simpl.
  - reflexivity.
  - rewrite IH by (auto; intros H; apply Hno; right; exact H).
    apply next_disposals; [|exact Hr]. intros ->. apply Hno. left. reflexivity.
Qed.

(** ** Invariants of a run *)

Lemma next_envIsHdr (e : Event) (v : Viewer) : envIsHdr v -> envIsHdr (next e v).
Proof.
  unfold envIsHdr. intros H. destruct e; simpl; try exact H.
  - exact I.
  - rewrite onModelLoaded_diamondEnv. exact H.
  - destruct (resizeListener v); exact H.
Qed.

Lemma mountResource_cases (r : Resource) :
  In r mountResources ->
  r = Controls \/ r = DracoLoader \/ r = GoldMaterial \/ r = DiamondMaterial \/
  r = Tex RoomEnvMap \/ r = PMREMGenerator \/ r = Renderer.
Proof. simpl. intuition auto. Qed.

Lemma mountResource_not_onLoad (r : Resource) :
  In r mountResources -> ~ disposedOnLoad r.
Proof.
  intros Hr H. apply mountResource_cases in Hr.
  destruct Hr as [->|[->|[->|[->|[->|[->| ->]]]]]]; exact H.
Qed.

(** One teardown calls [dispose()] once on each resource of the mount. *)
Lemma afterCleanup_mountResource (r : Resource) (v : Viewer) :
  envIsHdr v -> In r mountResources ->
  disposals r (afterCleanup v) = S (disposals r v).
Proof.
  intros Henv Hr. rewrite disposals_afterCleanup.
  rewrite (count_not_Geometry _ r)
    by (intros id ->; apply mountResource_cases in Hr; intuition discriminate).
  unfold envIsHdr in Henv. apply mountResource_cases in Hr.
  destruct (diamondEnv v) as [[| hdr | hdr | id]|]; try contradiction;
    destruct Hr as [->|[->|[->|[->|[->|[->| ->]]]]]];
    count_concrete; lia.
Qed.

Lemma runTo_teardowns (es : list Event) (r : Resource) :
  forall v, envIsHdr v -> In r mountResources ->
            disposals r (runTo es v) = (disposals r v + teardowns es)%nat.
Proof.
  induction es as [|e rest IH]; intros v Henv Hr; simpl.
  - unfold teardowns. simpl. lia.
  - rewrite (IH (next e v) (next_envIsHdr e v Henv) Hr).
    unfold teardowns. cbn [filter]. destruct (isCleanup e) eqn:Hc.
    + destruct e; try discriminate.
      change (next Cleanup v) with (afterCleanup v).
      rewrite (afterCleanup_mountResource r v Henv Hr). cbn [List.length]. lia.
    + rewrite next_disposals;
        [reflexivity | intros ->; discriminate | apply mountResource_not_onLoad; exact Hr].
Qed.

(** X6.  Along any run from the mount, the number of [dispose()] calls on
    the controls, the DRACO loader, either shared material, the synthetic
    environment map, the PMREM generator and the renderer is the number of
    times the teardown has run: none before it, and two after a second
    teardown.  No load continuation and no resize disposes any of them. *)
Theorem mount_resources_disposed_per_teardown (mount : Container)
    (devicePixelRatio : R) (modelPath : string) (metal : MetalPreset)
    (es : list Event) :
  exists v : Viewer,
    run es (mountEffect mount devicePixelRatio modelPath metal) = Ok v /\
    forall r, In r mountResources -> disposals r v = teardowns es.
Proof.
  eexists. split; [apply run_runTo|]. intros r Hr.
  rewrite runTo_teardowns; [reflexivity | exact I | exact Hr].
Qed.

(** ** A load that completes after the teardown *)

Lemma runTo_app (es1 es2 : list Event) (v : Viewer) :
  runTo (es1 ++ es2) v = runTo es2 (runTo es1 v).
Proof. unfold runTo. apply fold_left_app. Qed.

Lemma runTo_cons (e : Event) (es : list Event) (v : Viewer) :
  runTo (e :: es) v = runTo es (next e v).
Proof. reflexivity. Qed.

Lemma hdrLoads_app (es1 es2 : list Event) :
  hdrLoads (es1 ++ es2) = hdrLoads es1 ++ hdrLoads es2.
Proof. unfold hdrLoads. apply flat_map_app. Qed.

Lemma loadedGeometryIds_app (es1 es2 : list Event) :
  loadedGeometryIds (es1 ++ es2) = loadedGeometryIds es1 ++ loadedGeometryIds es2.
Proof. unfold loadedGeometryIds. apply flat_map_app. Qed.

(** X7.  The continuations are not cancelled by the teardown.  A model that
    loads after it is still classified and put under the scene, and its
    geometries are not disposed: the disposals of a geometry are those of the
    meshes loaded before the teardown.  An HDR image that loads after it
    still yields an environment map, which the viewer holds and never
    disposes. *)
Theorem late_load_is_not_disposed (mount : Container) (devicePixelRatio : R)
    (modelPath : string) (metal : MetalPreset) (es1 es2 : list Event) :
  ~ In Cleanup es1 ->
  ~ In Cleanup es2 ->
  exists v : Viewer,
    run (es1 ++ Cleanup :: es2) (mountEffect mount devicePixelRatio modelPath metal)
    = Ok v /\
    (forall id, disposals (Geometry id) v
                = count_occ Nat.eq_dec (loadedGeometryIds es1) id) /\
    (forall id, In id (loadedGeometryIds es2) ->
                In id (flat_map meshGeometryIds (scene v))) /\
    (forall hdr, hdrLoads es1 = [] -> hdrLoads es2 = [hdr] ->
                 diamondEnv v = Some (HdrEnvMap hdr) /\
                 disposals (Tex (HdrEnvMap hdr)) v = 0%nat).
Proof.
  intros Hno1 Hno2.
  set (v0 := mountEffect mount devicePixelRatio modelPath metal).
  eexists. split; [apply run_runTo|].
  split; [|split].
  - intros id. rewrite runTo_app, runTo_cons.
    rewrite runTo_disposals by (auto; intros H; exact H).
    apply geometry_disposals. exact Hno1.
  - intros id Hin. rewrite runTo_geometries, loadedGeometryIds_app.
    apply in_or_app. right. apply in_or_app. right.
    change (loadedGeometryIds (Cleanup :: es2)) with (loadedGeometryIds es2).
    exact Hin.
  - intros hdr H1 H2. split.
    + rewrite runTo_diamondEnv, hdrLoads_app, H1.
      change (hdrLoads (Cleanup :: es2)) with (hdrLoads es2). rewrite H2.
      reflexivity.
    + rewrite runTo_app, runTo_cons.
      rewrite runTo_disposals by (auto; intros H; exact H).
      change (next Cleanup (runTo es1 v0)) with (afterCleanup (runTo es1 v0)).
      rewrite disposals_afterCleanup. unfold disposals at 1.
      rewrite (count_not_onLoad _ (Tex (HdrEnvMap hdr)))
        by (try (apply runTo_disposed_onLoad; [exact Hno1 | constructor]);
            intros H; exact H).
      rewrite (count_not_Geometry _ (Tex (HdrEnvMap hdr))) by discriminate.
      rewrite runTo_diamondEnv, H1. simpl. reflexivity.
Qed.

Lemma late_load_is_not_disposed_witness :
  exists v : Viewer,
    run ([ModelError] ++ Cleanup :: [HdrLoaded 1; ModelLoaded twinProngs]) sampleViewer
    = Ok v /\
    (forall id, disposals (Geometry id) v
                = count_occ Nat.eq_dec (loadedGeometryIds [ModelError]) id) /\
    (forall id, In id (loadedGeometryIds [HdrLoaded 1; ModelLoaded twinProngs]) ->
                In id (flat_map meshGeometryIds (scene v))) /\
    (forall hdr, hdrLoads [ModelError] = [] ->
                 hdrLoads [HdrLoaded 1; ModelLoaded twinProngs] = [hdr] ->
                 diamondEnv v = Some (HdrEnvMap hdr) /\
                 disposals (Tex (HdrEnvMap hdr)) v = 0%nat).
Proof.
  apply (late_load_is_not_disposed sampleMount 1 "/models/ring6.glb" yellowGold
           [ModelError] [HdrLoaded 1; ModelLoaded twinProngs]).
  - intros [H|[]]. discriminate.
  - intros [H|[H|[]]]; discriminate.
Defined.

(** ** Resize events after the teardown *)

Lemma next_detached (e : Event) (v : Viewer) :
  resizeListener v = false ->
  resizeListener (next e v) = false /\
  renderer (next e v) = renderer v /\
  aspect (camera (next e v)) = aspect (camera v).
Proof.
  intros H. destruct e; simpl.
  - repeat split; assumption.
  - repeat split; assumption.
  - destruct (onModelLoaded_frame gltfScene v) as (Hr & _ & _ & _ & Hl & _).
    rewrite Hr, Hl, onModelLoaded_camera. repeat split; assumption.
  - repeat split; assumption.
  - rewrite H. repeat split; assumption.
  - repeat split.
Qed.

Lemma runTo_detached (es : list Event) :
  forall v, resizeListener v = false ->
            resizeListener (runTo es v) = false /\
            renderer (runTo es v) = renderer v /\
            aspect (camera (runTo es v)) = aspect (camera v).
Proof.
  induction es as [|e rest IH]; intros v H.
  - repeat split; assumption.
  - rewrite runTo_cons. destruct (next_detached e v H) as (Hl & Hr & Ha).
    destruct (IH (next e v) Hl) as (Hl' & Hr' & Ha').
    rewrite Hr', Ha', Hr, Ha. repeat split; assumption.
Qed.

(** X8.  Once the teardown has run, the resize handler is off the window for
    good: whatever events follow, resizes of any size among them, the
    renderer's size and the camera's aspect stay as the teardown found
    them. *)
Theorem resize_ignored_after_teardown (v0 : Viewer) (es1 es2 : list Event) :
  exists v1 v2 : Viewer,
    run (es1 ++ [Cleanup]) v0 = Ok v1 /\
    run (es1 ++ Cleanup :: es2) v0 = Ok v2 /\
    resizeListener v2 = false /\
    renderer v2 = renderer v1 /\
    aspect (camera v2) = aspect (camera v1).
Proof.
  exists (runTo (es1 ++ [Cleanup]) v0), (runTo (es1 ++ Cleanup :: es2) v0).
  split; [apply run_runTo|]. split; [apply run_runTo|].
  rewrite !runTo_app, !runTo_cons.
  change (runTo [] (next Cleanup (runTo es1 v0))) with (next Cleanup (runTo es1 v0)).
  apply runTo_detached. reflexivity.
Qed.

(** ** The projection and the constants of a mount *)

Lemma next_inSync (e : Event) (v : Viewer) :
  inSync (camera v) -> inSync (camera (next e v)).
Proof.
  intros H. destruct e; simpl; try exact H.
  - rewrite onModelLoaded_camera. reflexivity.
  - destruct (resizeListener v); [reflexivity | exact H].
Qed.

(** X9.  After every event the camera's projection is the one of its current
    field of view, aspect, near and far plane: each handler that writes one
    of them recomputes the projection before it returns. *)
Theorem projection_always_in_sync (mount : Container) (devicePixelRatio : R)
    (modelPath : string) (metal : MetalPreset) (es : list Event) :
  exists v : Viewer,
    run es (mountEffect mount devicePixelRatio modelPath metal) = Ok v /\
    inSync (camera v).
Proof.
  eexists. split; [apply run_runTo|].
  assert (H : inSync (camera (mountEffect mount devicePixelRatio modelPath metal)))
    by reflexivity.
  revert H. generalize (mountEffect mount devicePixelRatio modelPath metal).
  induction es as [|e rest IH]; intros v H.
  - exact H.
  - rewrite runTo_cons. apply IH, next_inSync, H.
Qed.

Lemma next_constants (e : Event) (v : Viewer) :
  goldMat (next e v) = goldMat v /\
  pixelRatio (renderer (next e v)) = pixelRatio (renderer v) /\
  path (next e v) = path v /\
  exists added, scene (next e v) = scene v ++ added.
Proof.
  destruct e; simpl.
  - repeat split. exists []. rewrite app_nil_r. reflexivity.
  - repeat split. exists []. rewrite app_nil_r. reflexivity.
  - destruct (onModelLoaded_frame gltfScene v) as (Hr & Hg & Hp & _).
    rewrite Hr, Hg, Hp, onModelLoaded_scene. repeat split. eexists. reflexivity.
  - repeat split. exists []. rewrite app_nil_r. reflexivity.
  - destruct (resizeListener v); repeat split; exists []; rewrite app_nil_r; reflexivity.
  - repeat split. exists []. rewrite app_nil_r. reflexivity.
Qed.

(** X10.  No event touches the metal material, the pixel ratio, the model
    path or the lights: along every run the metal material is the one built
    from the preset (room map, depth test and depth write on), the pixel
    ratio is the device's capped at 2, and the four lights are the first
    children of the scene, in front of whatever has loaded. *)
Theorem constants_of_a_mount (mount : Container) (devicePixelRatio : R)
    (modelPath : string) (metal : MetalPreset) (es : list Event) :
  exists v : Viewer,
    run es (mountEffect mount devicePixelRatio modelPath metal) = Ok v /\
    goldMat v = goldMat_of metal /\
    depthWrite (goldMat v) = true /\
    pixelRatio (renderer v) = Rmin devicePixelRatio 2 /\
    pixelRatio (renderer v) <= 2 /\
    path v = modelPath /\
    exists roots, scene v = mountLights ++ roots.
Proof.
  eexists. split; [apply run_runTo|].
  assert (H : goldMat (runTo es (mountEffect mount devicePixelRatio modelPath metal))
              = goldMat_of metal /\
              pixelRatio (renderer (runTo es (mountEffect mount devicePixelRatio
                                                modelPath metal)))
              = Rmin devicePixelRatio 2 /\
              path (runTo es (mountEffect mount devicePixelRatio modelPath metal))
              = modelPath /\
              exists roots,
                scene (runTo es (mountEffect mount devicePixelRatio modelPath metal))
                = mountLights ++ roots).
  { assert (H0 : goldMat (mountEffect mount devicePixelRatio modelPath metal)
                 = goldMat_of metal /\
                 pixelRatio (renderer (mountEffect mount devicePixelRatio modelPath metal))
                 = Rmin devicePixelRatio 2 /\
                 path (mountEffect mount devicePixelRatio modelPath metal) = modelPath /\
                 exists roots,
                   scene (mountEffect mount devicePixelRatio modelPath metal)
                   = mountLights ++ roots)
      by (repeat split; exists []; reflexivity).
    revert H0. generalize (mountEffect mount devicePixelRatio modelPath metal).
    induction es as [|e rest IH]; intros v H0; [exact H0|].
    rewrite runTo_cons. apply IH.
    destruct H0 as (Hg & Hp & Hpath & roots & Hs).
    destruct (next_constants e v) as (Hg' & Hp' & Hpath' & added & Hs').
    rewrite Hg', Hp', Hpath', Hs', Hs. repeat split; try assumption.
    exists (roots ++ added). rewrite app_assoc. reflexivity. }
  destruct H as (Hg & Hp & Hpath & Hroots).
  rewrite Hg, Hp. repeat split; try assumption. apply Rmin_r.
Qed.

(** ** The HDR load that succeeds *)

Lemma next_envMap_noError (e : Event) (v : Viewer) :
  e <> HdrError ->
  envMap (standard (diamondMat (next e v)))
  = fold_left (fun _ hdr => Some (HdrEnvMap hdr)) (hdrLoads [e])
      (envMap (standard (diamondMat v))) /\
  envMapIntensity (standard (diamondMat (next e v)))
  = envMapIntensity (standard (diamondMat v)).
Proof.
  intros He. destruct e; simpl.
  - split; reflexivity.
  - contradiction.
  - apply onModelLoaded_envMap.
  - split; reflexivity.
  - destruct (resizeListener v); split; reflexivity.
  - split; reflexivity.
Qed.

Lemma runTo_envMap_noError (es : list Event) :
  forall v, ~ In HdrError es ->
    envMap (standard (diamondMat (runTo es v)))
    = fold_left (fun _ hdr => Some (HdrEnvMap hdr)) (hdrLoads es)
        (envMap (standard (diamondMat v))) /\
    envMapIntensity (standard (diamondMat (runTo es v)))
    = envMapIntensity (standard (diamondMat v)).
Proof.
  induction es as [|e rest IH]; intros v Hno.
  - split; reflexivity.
  - rewrite runTo_cons.
    destruct (IH (next e v)) as [Hmap Hint];
      [intros H; apply Hno; right; exact H|].
    destruct (next_envMap_noError e v) as [Hmap' Hint'];
      [intros ->; apply Hno; left; reflexivity|].
    rewrite Hmap, Hint, Hmap', Hint'.
    change (e :: rest) with ([e] ++ rest).
    rewrite hdrLoads_app, fold_left_app. split; reflexivity.
Qed.

(** X11.  If the HDR load succeeds, its success continuation running once
    and its error continuation never, then whatever else happens the gem
    material reflects the environment map made from the loaded image, which
    is also the map the teardown will dispose, and its intensity is still the
    5 it was constructed with, not the fallback's 6. *)
Theorem hdr_success_installs_map (mount : Container) (devicePixelRatio : R)
    (modelPath : string) (metal : MetalPreset) (es : list Event) (hdr : nat) :
  ~ In HdrError es ->
  hdrLoads es = [hdr] ->
  exists v : Viewer,
    run es (mountEffect mount devicePixelRatio modelPath metal) = Ok v /\
    envMap (standard (diamondMat v)) = Some (HdrEnvMap hdr) /\
    diamondEnv v = Some (HdrEnvMap hdr) /\
    envMapIntensity (standard (diamondMat v)) = 5%float.
Proof.
  intros Hno Hhdr. eexists. split; [apply run_runTo|].
  destruct (runTo_envMap_noError es
              (mountEffect mount devicePixelRatio modelPath metal) Hno) as [Hmap Hint].
  rewrite Hmap, Hint, runTo_diamondEnv, Hhdr. repeat split.
Qed.

Lemma hdr_success_installs_map_witness :
  exists v : Viewer,
    run [ModelLoaded twinProngs; HdrLoaded 4; Cleanup] sampleViewer = Ok v /\
    envMap (standard (diamondMat v)) = Some (HdrEnvMap 4) /\
    diamondEnv v = Some (HdrEnvMap 4) /\
    envMapIntensity (standard (diamondMat v)) = 5%float.
Proof.
  apply (hdr_success_installs_map sampleMount 1 "/models/ring6.glb" yellowGold
           [ModelLoaded twinProngs; HdrLoaded 4; Cleanup] 4).
  - intros [H|[H|[H|[]]]]; discriminate.
  - reflexivity.
Defined.

(** ** The model load that fails *)







(** ** Events that commute with a model load *)

Section TraverseCommute.

Context {A B S : Type} (cb : Object3D A -> S -> B * Z * S) (f : S -> S).
Hypothesis cb_commutes : forall o s, cb o (f s) = (fst (cb o s), f (snd (cb o s))).

Lemma traverseEach_commute (cs : list (Object3D A)) :
  Forall (fun c => forall s,
              traverse cb c (f s) = (fst (traverse cb c s), f (snd (traverse cb c s)))) cs ->
  forall s, traverseEach cb cs (f s)
            = (fst (traverseEach cb cs s), f (snd (traverseEach cb cs s))).
Proof.
  induction 1 as [|c rest Hc _ IH]; intros s.
  - reflexivity.
  - rewrite !traverseEach_cons, Hc.
    destruct (traverse cb c s) as [c' s']. simpl. rewrite IH.
    destruct (traverseEach cb rest s') as [rest' s'']. reflexivity.
Qed.

(** A change of the state that the callback commutes with at every node
    commutes with the traversal. *)
Lemma traverse_commute (o : Object3D A) :
  forall s, traverse cb o (f s) = (fst (traverse cb o s), f (snd (traverse cb o s))).
Proof.
  induction o as [o IH] using Object3D_forall_ind. intros s.
  rewrite !traverse_unfold, cb_commutes.
  destruct (cb o s) as [[m order] s1]. simpl.
  rewrite (traverseEach_commute (children o) IH s1).
  destruct (traverseEach cb (children o) s1) as [cs' s2]. reflexivity.
Qed.

End TraverseCommute.

Lemma classifyMesh_onResize (w h : Z) (o : Object3D OldMaterial) (s : Viewer) :
  classifyMesh o (onResize w h s)
  = (fst (classifyMesh o s), onResize w h (snd (classifyMesh o s))).
Proof.
  destruct (isMesh o) eqn:Hmesh.
  - rewrite !(classifyMesh_mesh o _ Hmesh). destruct (useGem o); reflexivity.
  - rewrite !(classifyMesh_other o _ Hmesh). reflexivity.
Qed.

Lemma classifyMesh_onHdrError (o : Object3D OldMaterial) (s : Viewer) :
  classifyMesh o (onHdrError s)
  = (fst (classifyMesh o s), onHdrError (snd (classifyMesh o s))).
Proof.
  destruct (isMesh o) eqn:Hmesh.
  - rewrite !(classifyMesh_mesh o _ Hmesh). destruct (useGem o); reflexivity.
  - rewrite !(classifyMesh_other o _ Hmesh). reflexivity.
Qed.

Lemma onModelLoaded_onResize (w h : Z) (g : Object3D OldMaterial) (v : Viewer) :
  onModelLoaded g (onResize w h v) = onResize w h (onModelLoaded g v).
Proof.
  unfold onModelLoaded.
  rewrite (traverse_commute classifyMesh (onResize w h) (classifyMesh_onResize w h) g v).
  destruct (traverse classifyMesh g v) as [root v1]. reflexivity.
Qed.

Lemma onModelLoaded_onHdrError (g : Object3D OldMaterial) (v : Viewer) :
  onModelLoaded g (onHdrError v) = onHdrError (onModelLoaded g v).
Proof.
  unfold onModelLoaded.
  rewrite (traverse_commute classifyMesh onHdrError classifyMesh_onHdrError g v).
  destruct (traverse classifyMesh g v) as [root v1]. reflexivity.
Qed.

(** X13.  The model load does not depend on when the window is resized or
    on when the HDR load fails: a resize, or the HDR error continuation,
    leaves the same viewer whether it runs just before the model's success
    continuation or just after it. *)
Theorem model_load_commutes (gltfScene : Object3D OldMaterial) (w h : Z) (v : Viewer) :
  run [ModelLoaded gltfScene; WindowResize w h] v
  = run [WindowResize w h; ModelLoaded gltfScene] v /\
  run [ModelLoaded gltfScene; HdrError] v = run [HdrError; ModelLoaded gltfScene] v.
Proof.
  rewrite !run_runTo. split; f_equal; unfold runTo; cbn [fold_left next].
  - destruct (onModelLoaded_frame gltfScene v) as (_ & _ & _ & _ & -> & _).
    destruct (resizeListener v); [|reflexivity].
    symmetry. apply onModelLoaded_onResize.
  - symmetry. apply onModelLoaded_onHdrError.
Qed.

(** ** The bounding sphere of the model in the scene *)

Lemma getSize_translate (b : Box3.t) (d : Vector3.t) :
  Box3.getSize (Box3.translate b d) = Box3.getSize b.
Proof.
  destruct b as [[[x0 y0 z0] [x1 y1 z1]]|]; [|reflexivity].
  destruct d as [dx dy dz]. unfold Box3.getSize, Box3.translate, Vector3.sub, Vector3.add.
  simpl. f_equal; lra.
Qed.

(** X14.  Centring moves the model without resizing it: the box of the root
    as it sits in the scene has the size the loaded model's box had, and its
    bounding sphere is the sphere about the origin with the radius the
    camera fit was computed from. *)
Theorem centring_keeps_size (gltfScene : Object3D OldMaterial) (v : Viewer) :
  exists root : Object3D SceneMaterial,
    getRingRoot (onModelLoaded gltfScene v) = Some root /\
    Box3.getSize (setFromObject root) = Box3.getSize (setFromObject gltfScene) /\
    Box3.getBoundingSphere (setFromObject root)
    = Sphere.mk Vector3.zero
        (Sphere.radius (Box3.getBoundingSphere (setFromObject gltfScene))).
Proof.
  eexists. split; [apply onModelLoaded_root|].
  rewrite <- (traverse_position classifyMesh gltfScene v).
  rewrite <- (traversal_box gltfScene v).
  rewrite setFromObject_setPosition.
  set (b := setFromObject (fst (traverse classifyMesh gltfScene v))).
  split; [apply getSize_translate|].
  pose proof (getCenter_recentred b) as Hc.
  pose proof (getSize_translate b (Vector3.negate (Box3.getCenter b))) as Hs.
  destruct b as [[mn mx]|]; [|reflexivity].
  unfold Box3.getBoundingSphere.
  change (Box3.translate (Some (mn, mx)) (Vector3.negate (Box3.getCenter (Some (mn, mx)))))
    with (Some (Vector3.add mn (Vector3.negate (Box3.getCenter (Some (mn, mx)))),
                Vector3.add mx (Vector3.negate (Box3.getCenter (Some (mn, mx)))))) in *.
  rewrite Hc, Hs. reflexivity.
Qed.

(** ** The fitted camera and the model *)





(** ** What a load writes on the gem material *)

Section TraverseKeepsOn.

Context {A B S : Type} (cb : Object3D A -> S -> B * Z * S) (I : S -> Prop).

(** A property of the state that the callback keeps at the nodes of the
    graph is kept by the traversal of the graph. *)
Lemma traverse_keeps_on (o : Object3D A) :
  (forall n, In n (nodes o) -> forall s, I s -> I (snd (cb n s))) ->
  forall s, I s -> I (snd (traverse cb o s)).
Proof.
  induction o as [o IH] using Object3D_forall_ind. intros Hn s Hs.
  rewrite traverse_unfold.
  assert (Hhead : I (snd (cb o s)))
    by (apply Hn; [destruct o; left; reflexivity | exact Hs]).
  assert (Hsub : forall n, In n (flat_map nodes (children o)) ->
                           forall s, I s -> I (snd (cb n s)))
    by (intros n Hin; apply Hn; destruct o; right; exact Hin).
  clear Hn. destruct (cb o s) as [[m order] s1]. simpl in Hhead.
  enough (H : I (snd (traverseEach cb (children o) s1)))
    by (destruct (traverseEach cb (children o) s1) as [cs' s2]; exact H).
  revert s1 Hhead. induction IH as [|c rest Hc _ IHrest]; intros s1 Hs1.
  - exact Hs1.
  - rewrite traverseEach_cons.
    assert (H1 : I (snd (traverse cb c s1))).
    { apply Hc; [|exact Hs1]. intros n Hin. apply Hsub. simpl.
      apply in_or_app. left. exact Hin. }
    destruct (traverse cb c s1) as [c' s']. simpl in H1.
    assert (H2 : I (snd (traverseEach cb rest s'))).
    { apply IHrest; [|exact H1]. intros n Hin. apply Hsub. simpl.
      apply in_or_app. right. exact Hin. }
    destruct (traverseEach cb rest s') as [rest' s'']. exact H2.
Qed.

End TraverseKeepsOn.

Lemma withGemDepthFlags_twice (m : MeshPhysicalMaterial) :
  withGemDepthFlags (withGemDepthFlags m) = withGemDepthFlags m.
Proof. reflexivity. Qed.

(** X16.  A model load writes nothing on the shared gem material but the
    two depth flags: after it the material is the one before, or the one
    before with depth test on and depth write off.  Its colour, environment
    map, intensity and every other parameter are as they were, however many
    gem meshes the model has. *)
Theorem load_writes_depth_flags_only (gltfScene : Object3D OldMaterial) (v : Viewer) :
  diamondMat (onModelLoaded gltfScene v) = diamondMat v \/
  diamondMat (onModelLoaded gltfScene v) = withGemDepthFlags (diamondMat v).
Proof.
  rewrite onModelLoaded_diamondMat.
  apply (traverse_keeps classifyMesh
           (fun s => diamondMat s = diamondMat v \/
                     diamondMat s = withGemDepthFlags (diamondMat v))).
  - intros o s H. destruct (isMesh o) eqn:Hmesh.
    + rewrite (classifyMesh_mesh o s Hmesh). destruct (useGem o); [|exact H].
      right. change (withGemDepthFlags (diamondMat s) = withGemDepthFlags (diamondMat v)).
      destruct H as [-> | ->]; [reflexivity | apply withGemDepthFlags_twice].
    + rewrite (classifyMesh_other o s Hmesh). exact H.
  - left. reflexivity.
Qed.

(** X17.  A model none of whose meshes is a gem leaves the gem material as
    it was: depth write stays as it is until a gem mesh is classified. *)
Theorem load_without_gems_keeps_gem_material (gltfScene : Object3D OldMaterial)
    (v : Viewer) :
  (forall n, In n (nodes gltfScene) -> isMesh n = true -> ~ gemCondition n) ->
  diamondMat (onModelLoaded gltfScene v) = diamondMat v.
Proof.
  intros Hnone. rewrite onModelLoaded_diamondMat.
  apply (traverse_keeps_on classifyMesh (fun s => diamondMat s = diamondMat v)).
  - intros n Hin s H. destruct (isMesh n) eqn:Hmesh.
    + rewrite (classifyMesh_mesh n s Hmesh).
      destruct (useGem n) eqn:Hgem; [|exact H].
      exfalso. apply (Hnone n Hin Hmesh). apply useGem_iff. exact Hgem.
    + rewrite (classifyMesh_other n s Hmesh). exact H.
  - reflexivity.
Qed.

Lemma load_without_gems_keeps_gem_material_witness :
  diamondMat (onModelLoaded twinProngs sampleViewer) = diamondMat sampleViewer.
Proof.
  apply (load_without_gems_keeps_gem_material twinProngs sampleViewer).
  intros n Hin Hmesh Hgem. apply useGem_iff in Hgem.
  simpl in Hin. destruct Hin as [<-|[<-|[<-|[]]]]; vm_compute in Hgem; discriminate.
Defined.
